(** * FastBox delivery simulator: a shallow embedding of [mystery_delivery_sys.py]

    The class [FastBoxDeliverySystem] is embedded method by method.  Python
    floats are IEEE 754 binary64 numbers and are modelled by Rocq's primitive
    floats, so every definition below runs ([vm_compute]) on concrete
    catalogs.  Python dictionaries keep insertion order, and the simulator
    depends on it (agent iteration order breaks ties), so a dictionary is an
    association list with unique keys and Python's update discipline.
    Exceptions are values of an error monad.

    Modelling conventions, fixed once and used throughout:
    - identifiers are strings and locations are pairs of floats, as the
      annotations of the source say ([Dict[str, Tuple[float, float]]]);
    - [x ** 2] is the correctly rounded square [x * x];
    - delivered counts are natural numbers, converted to float exactly as
      long as they stay below 2^53;
    - the module-level generator [random] is an output sequence
      [random : nat -> float] together with the index of the next draw;
    - the builtin [round(x, 2)] is a parameter [round2] of the reporting
      functions; [py_round2] is an executable model of it used to run
      examples;
    - console output is not modelled, except for the warning of
      [generate_report], which is returned as a boolean. *)

From Stdlib Require Import Floats ZArith Bool List String Ascii Lia.
From Stdlib Require Uint63.
From Stdlib Require Import DecimalString.
Import ListNotations.

(** ** Python floats *)

Module PyFloat.

Local Open Scope float_scope.

(** [float('inf')] *)
Definition inf : float := infinity.

(** [x ** 2] on a float. *)
Definition pow2 (x : float) : float := x * x.

(** Conversion of a (small) Python int to float, as in [float / int]. *)
Definition of_nat (n : nat) : float := of_uint63 (Uint63.of_Z (Z.of_nat n)).

(** The literals of the source that are not binary64 values, written as
    the binary64 values Python reads them as. *)
Definition f0_3 : float := 0x1.3333333333333p-2.   (* 0.3 *)

End PyFloat.

(** ** Exceptions *)

(** The exceptions the modelled methods can raise on well-typed data:
    [KeyError], whose payload is the missing key ([None] is a legal key), and
    [TypeError] for subscripting a string as if it were a record. *)
Inductive exn : Type :=
| KeyError (key : option string)
| TypeError.

Inductive result (A : Type) : Type :=
| Ok (a : A)
| Raise (e : exn).

Arguments Ok {A} a.
Arguments Raise {A} e.

Definition bind {A B : Type} (m : result A) (k : A -> result B) : result B :=
  match m with
  | Ok a => k a
  | Raise e => Raise e
  end.

Declare Scope py_scope.
Delimit Scope py_scope with py.
Notation "x <- m ;; k" := (bind m (fun x => k))
  (at level 61, m at next level, right associativity) : py_scope.
Notation "' p <- m ;; k" := (bind m (fun p => k))
  (at level 61, p pattern, m at next level, right associativity) : py_scope.
Local Open Scope py_scope.

(** ** Insertion-ordered dictionaries *)

Class Key (K : Type) : Type := { key_eqb : K -> K -> bool }.

#[export] Instance string_Key : Key string := {| key_eqb := String.eqb |}.

Definition option_string_eqb (a b : option string) : bool :=
  match a, b with
  | None, None => true
  | Some x, Some y => String.eqb x y
  | _, _ => false
  end.

#[export] Instance option_string_Key : Key (option string) :=
  {| key_eqb := option_string_eqb |}.

Module Dict.
Section Dict.
Context {K V : Type} `{Key K}.

Definition t : Type := list (K * V).

(** [d.get(k)] *)
Fixpoint get (d : t) (k : K) : option V :=
  match d with
  | [] => None
  | (k', v) :: rest => if key_eqb k' k then Some v else get rest k
  end.

(** [k in d] *)
Definition contains (d : t) (k : K) : bool :=
  match get d k with Some _ => true | None => false end.

(** [d[k] = v]: an existing key keeps its position, a new key goes last. *)
Fixpoint setitem (d : t) (k : K) (v : V) : t :=
  match d with
  | [] => [(k, v)]
  | (k', v') :: rest =>
      if key_eqb k' k then (k', v) :: rest else (k', v') :: setitem rest k v
  end.

(** [d.keys()] and [d.items()] in iteration order. *)
Definition keys (d : t) : list K := map fst d.
Definition items (d : t) : list (K * V) := d.
End Dict.
Arguments t K V : clear implicits.
End Dict.

Definition dict : Type -> Type -> Type := Dict.t.

(** [d[k]] for a string-keyed dictionary. *)
Definition getitem {V : Type} (d : dict string V) (k : string) : result V :=
  match Dict.get d k with
  | Some v => Ok v
  | None => Raise (KeyError (Some k))
  end.

(** [d[k]] where [k] may be [None]: no dictionary built from string
    identifiers has the key [None]. *)
Definition getitem_ref {V : Type} (d : dict string V) (k : option string) : result V :=
  match k with
  | Some s => getitem d s
  | None => Raise (KeyError None)
  end.

(** Truth value of a string, and of [None] or a string. *)
Definition truthy (s : string) : bool := negb (String.eqb s "").

Definition truthy_opt (o : option string) : bool :=
  match o with
  | Some s => truthy s
  | None => false
  end.

(** ** Data model *)

Definition point : Type := (float * float)%type.

Inductive leg_type : Type := to_warehouse | delivery.

(** One entry of [route_history]. *)
Record RouteStep : Type := mkRouteStep {
  step_from : point;
  step_to : point;
  step_distance : float;
  step_type : leg_type
}.

(** One value of [self.agent_stats]. *)
Record AgentStats : Type := mkAgentStats {
  packages_delivered : nat;
  total_distance : float;
  current_location : point;
  route_history : list RouteStep
}.

(** One element of [self.packages]; [warehouse] is [None] when the record
    carried no usable reference. *)
Record Package : Type := mkPackage {
  id : string;
  warehouse : option string;
  destination : point
}.

Record FastBoxDeliverySystem : Type := mkSystem {
  warehouses : dict string point;
  agents : dict string point;
  packages : list Package;
  agent_stats : dict string AgentStats;
  enable_random_delays : bool;
  (** index of the next value the generator [random] hands out *)
  rng : nat
}.

Definition set_agent_stats (self : FastBoxDeliverySystem) (st : dict string AgentStats) :=
  mkSystem self.(warehouses) self.(agents) self.(packages) st
           self.(enable_random_delays) self.(rng).

Definition set_enable_random_delays (self : FastBoxDeliverySystem) (b : bool) :=
  mkSystem self.(warehouses) self.(agents) self.(packages) self.(agent_stats)
           b self.(rng).

Definition set_rng (self : FastBoxDeliverySystem) (n : nat) :=
  mkSystem self.(warehouses) self.(agents) self.(packages) self.(agent_stats)
           self.(enable_random_delays) n.

Definition with_location (st : AgentStats) (loc : point) :=
  mkAgentStats st.(packages_delivered) st.(total_distance) loc st.(route_history).

(** One per-agent value of the report. *)
Record AgentReport : Type := mkAgentReport {
  rep_packages_delivered : nat;
  rep_total_distance : float;
  rep_efficiency : float
}.

(** The report is one dictionary holding both kinds of value: the per-agent
    records and, under the key ['best_agent'], an agent identifier. *)
Inductive report_value : Type :=
| Entry (e : AgentReport)
| Designator (agent_id : string).

Definition Report : Type := dict string report_value.

(** ** The load payload *)

(** The [warehouses] and [agents] slots: a list of [{id, location}] records,
    or a mapping from identifier to location (its items, in order); anything
    else is ignored by the parsers. *)
Inductive locations_data : Type :=
| LocList (records : list (string * point))
| LocDict (entries : dict string point)
| LocOther.

(** A package record of the payload.  Every field may be absent ([None]);
    a warehouse reference that is present holds a string or [null]. *)
Record package_record : Type := mkPackageRecord {
  rec_id : option string;
  rec_warehouse_id : option (option string);
  rec_warehouse : option (option string);
  rec_destination : option point
}.

Record json_data : Type := mkJsonData {
  data_warehouses : locations_data;
  data_agents : locations_data;
  data_packages : list package_record
}.

(** ** Parsing: [_parse_warehouses], [_parse_agents], [_parse_packages] *)

Definition _parse_warehouses (warehouses_data : locations_data) : dict string point :=
  match warehouses_data with
  | LocList records =>
      fold_left (fun warehouses w => Dict.setitem warehouses (fst w) (snd w)) records []
  | LocDict entries =>
      fold_left (fun warehouses w => Dict.setitem warehouses (fst w) (snd w))
                (Dict.items entries) []
  | LocOther => []
  end.

Definition _parse_agents (agents_data : locations_data) : dict string point :=
  match agents_data with
  | LocList records =>
      fold_left (fun agents a => Dict.setitem agents (fst a) (snd a)) records []
  | LocDict entries =>
      fold_left (fun agents a => Dict.setitem agents (fst a) (snd a))
                (Dict.items entries) []
  | LocOther => []
  end.

(** [package.get(field)]: [None] when the key is absent or holds [null]. *)
Definition record_get (field : option (option string)) : option string :=
  match field with
  | Some v => v
  | None => None
  end.

(** [a or b] on values that are [None] or strings. *)
Definition py_or (a b : option string) : option string :=
  if truthy_opt a then a else b.

(** [package[field]] *)
Definition record_getitem {A : Type} (name : string) (field : option A) : result A :=
  match field with
  | Some v => Ok v
  | None => Raise (KeyError (Some name))
  end.

Definition parse_package (package : package_record) : result Package :=
  let warehouse_id :=
    py_or (record_get package.(rec_warehouse_id)) (record_get package.(rec_warehouse)) in
  pid <- record_getitem "id" package.(rec_id) ;;
  dest <- record_getitem "destination" package.(rec_destination) ;;
  Ok (mkPackage pid warehouse_id dest).

Fixpoint _parse_packages (packages_data : list package_record) : result (list Package) :=
  match packages_data with
  | [] => Ok []
  | package :: rest =>
      p <- parse_package package ;;
      ps <- _parse_packages rest ;;
      Ok (p :: ps)
  end.

(** [_initialize_agent_stats], started from an empty [agent_stats]. *)
Definition fresh_stats (location : point) : AgentStats :=
  mkAgentStats 0 0%float location [].

Definition _initialize_agent_stats (agents : dict string point) : dict string AgentStats :=
  fold_left (fun stats a => Dict.setitem stats (fst a) (fresh_stats (snd a)))
            (Dict.items agents) [].

(** [__init__] *)
Definition init (data : json_data) : result FastBoxDeliverySystem :=
  let warehouses := _parse_warehouses data.(data_warehouses) in
  let agents := _parse_agents data.(data_agents) in
  packages <- _parse_packages data.(data_packages) ;;
  Ok (mkSystem warehouses agents packages (_initialize_agent_stats agents) false 0).

(** ** Geometry: [calculate_distance] *)

Definition calculate_distance (point1 point2 : point) : float :=
  let '(x1, y1) := point1 in
  let '(x2, y2) := point2 in
  PrimFloat.sqrt (PyFloat.pow2 (x2 - x1) + PyFloat.pow2 (y2 - y1))%float.

(** ** Assignment: [find_nearest_agent], [assign_packages_to_agents] *)

(** The loop of [find_nearest_agent], with its two running variables. *)
Fixpoint find_nearest_agent_loop (stats : dict string AgentStats)
    (warehouse_location : point) (available_agents : list string)
    (nearest_agent : option string) (min_distance : float) : result (option string) :=
  match available_agents with
  | [] => Ok nearest_agent
  | agent_id :: rest =>
      st <- getitem stats agent_id ;;
      let distance := calculate_distance st.(current_location) warehouse_location in
      if (distance <? min_distance)%float
      then find_nearest_agent_loop stats warehouse_location rest (Some agent_id) distance
      else find_nearest_agent_loop stats warehouse_location rest nearest_agent min_distance
  end.

Definition find_nearest_agent (self : FastBoxDeliverySystem)
    (warehouse_location : point) : result (option string) :=
  find_nearest_agent_loop self.(agent_stats) warehouse_location
    (Dict.keys self.(agents)) None PyFloat.inf.


(** [d[k].append(x)] *)
Definition append_at {A : Type} (d : dict string (list A)) (k : string) (x : A)
  : result (dict string (list A)) :=
  l <- getitem d k ;;
  Ok (Dict.setitem d k (l ++ [x])).

Fixpoint assign_loop (self : FastBoxDeliverySystem) (pkgs : list Package)
    (agent_assignments : dict string (list Package))
  : result (dict string (list Package)) :=
  match pkgs with
  | [] => Ok agent_assignments
  | package :: rest =>
      let warehouse_id := package.(warehouse) in
      warehouse_location <- getitem_ref self.(warehouses) warehouse_id ;;
      nearest_agent <- find_nearest_agent self warehouse_location ;;
      match nearest_agent with
      | Some a =>
          if truthy a
          then (asg <- append_at agent_assignments a package ;; assign_loop self rest asg)
          else assign_loop self rest agent_assignments
      | None => assign_loop self rest agent_assignments
      end
  end.

Definition assign_packages_to_agents (self : FastBoxDeliverySystem)
  : result (dict string (list Package)) :=
  let agent_assignments := map (fun agent_id => (agent_id, @nil Package))
                               (Dict.keys self.(agents)) in
  assign_loop self self.(packages) agent_assignments.

(** ** Route simulation *)

Section Simulation.

(** The output sequence of the generator: [random k] is the value the
    [k]-th call (counting from 0) of [random.random()] returns. *)
Variable random : nat -> float.

(** [random.uniform(a, b)], which is [a + (b - a) * random()], at draw [k]. *)
Definition uniform (k : nat) (a b : float) : float :=
  (a + (b - a) * random k)%float.

(** [simulate_random_delay]: the multiplier, and the generator advanced by
    the one draw it made (none when delays are disabled). *)
Definition simulate_random_delay (self : FastBoxDeliverySystem)
  : float * FastBoxDeliverySystem :=
  if negb self.(enable_random_delays) then (1%float, self)
  else
    let delay_multiplier := (1 + uniform self.(rng) 0 PyFloat.f0_3)%float in
    (delay_multiplier, set_rng self (S self.(rng))).

(** Writes to [self.agent_stats[agent_id][...]]. *)
Definition update_stats (self : FastBoxDeliverySystem) (agent_id : string)
    (f : AgentStats -> AgentStats) : result FastBoxDeliverySystem :=
  st <- getitem self.(agent_stats) agent_id ;;
  Ok (set_agent_stats self (Dict.setitem self.(agent_stats) agent_id (f st))).

(** The writes of a leg to the warehouse, and of a delivery leg. *)
Definition record_to_warehouse (from_location warehouse_location : point)
    (effective_distance : float) (st : AgentStats) : AgentStats :=
  mkAgentStats st.(packages_delivered)
    (st.(total_distance) + effective_distance)%float
    warehouse_location
    (st.(route_history) ++
       [mkRouteStep from_location warehouse_location effective_distance to_warehouse]).

Definition record_delivery (from_location dest : point)
    (effective_distance : float) (st : AgentStats) : AgentStats :=
  mkAgentStats (st.(packages_delivered) + 1)
    (st.(total_distance) + effective_distance)%float
    st.(current_location)
    (st.(route_history) ++
       [mkRouteStep from_location dest effective_distance delivery]).

(** [for package in warehouse_packages: ...] *)
Fixpoint deliver_loop (self : FastBoxDeliverySystem) (agent_id : string)
    (current_location : point) (warehouse_packages : list Package)
  : result (point * FastBoxDeliverySystem) :=
  match warehouse_packages with
  | [] => Ok (current_location, self)
  | package :: rest =>
      let distance_to_destination :=
        calculate_distance current_location package.(destination) in
      let '(delay_multiplier, self) := simulate_random_delay self in
      let effective_distance_to_destination :=
        (distance_to_destination * delay_multiplier)%float in
      self <- update_stats self agent_id
                (record_delivery current_location package.(destination)
                                 effective_distance_to_destination) ;;
      deliver_loop self agent_id package.(destination) rest
  end.

(** [for warehouse_id, warehouse_packages in packages_by_warehouse.items(): ...] *)
Fixpoint warehouse_loop (self : FastBoxDeliverySystem) (agent_id : string)
    (current_location : point)
    (groups : list (option string * list Package))
  : result (point * FastBoxDeliverySystem) :=
  match groups with
  | [] => Ok (current_location, self)
  | (warehouse_id, warehouse_packages) :: rest =>
      warehouse_location <- getitem_ref self.(warehouses) warehouse_id ;;
      let distance_to_warehouse :=
        calculate_distance current_location warehouse_location in
      let '(delay_multiplier, self) := simulate_random_delay self in
      let effective_distance_to_warehouse :=
        (distance_to_warehouse * delay_multiplier)%float in
      self <- update_stats self agent_id
                (record_to_warehouse current_location warehouse_location
                                     effective_distance_to_warehouse) ;;
      ' (current_location, self) <-
          deliver_loop self agent_id warehouse_location warehouse_packages ;;
      warehouse_loop self agent_id current_location rest
  end.

(** [packages_by_warehouse[warehouse_id].append(package)] *)
Definition append_group (d : dict (option string) (list Package))
    (k : option string) (x : Package) : result (dict (option string) (list Package)) :=
  match Dict.get d k with
  | Some l => Ok (Dict.setitem d k (l ++ [x]))
  | None => Raise (KeyError k)
  end.

(** [for package in packages: ...] building [packages_by_warehouse]. *)
Fixpoint group_loop (pkgs : list Package)
    (packages_by_warehouse : dict (option string) (list Package))
  : result (dict (option string) (list Package)) :=
  match pkgs with
  | [] => Ok packages_by_warehouse
  | package :: rest =>
      let warehouse_id := package.(warehouse) in
      let packages_by_warehouse :=
        if negb (Dict.contains packages_by_warehouse warehouse_id)
        then Dict.setitem packages_by_warehouse warehouse_id []
        else packages_by_warehouse in
      pbw <- append_group packages_by_warehouse warehouse_id package ;;
      group_loop rest pbw
  end.

(** [for agent_id, packages in assignments.items(): ...] *)
Fixpoint agents_loop (self : FastBoxDeliverySystem)
    (assignments : list (string * list Package)) : result FastBoxDeliverySystem :=
  match assignments with
  | [] => Ok self
  | (agent_id, pkgs) :: rest =>
      match pkgs with
      | [] => agents_loop self rest
      | _ :: _ =>
          st <- getitem self.(agent_stats) agent_id ;;
          let current_location := st.(current_location) in
          packages_by_warehouse <- group_loop pkgs [] ;;
          ' (current_location, self) <-
              warehouse_loop self agent_id current_location
                             (Dict.items packages_by_warehouse) ;;
          self <- update_stats self agent_id
                    (fun st => with_location st current_location) ;;
          agents_loop self rest
      end
  end.

(** [str(n)] for a Python int [n >= 0]. *)
Definition string_of_nat (n : nat) : string :=
  NilEmpty.string_of_uint (Nat.to_uint n).

(** [_add_new_agent_mid_day] (the console notice is not modelled). *)
Definition _add_new_agent_mid_day (self : FastBoxDeliverySystem)
  : FastBoxDeliverySystem :=
  if (0 <? List.length self.(packages))%nat then
    let new_agent_id := String.append "A" (string_of_nat (List.length self.(agents) + 1)) in
    let new_location :=
      (uniform self.(rng) 0 100, uniform (S self.(rng)) 0 100) in
    mkSystem self.(warehouses)
             (Dict.setitem self.(agents) new_agent_id new_location)
             self.(packages)
             (Dict.setitem self.(agent_stats) new_agent_id (fresh_stats new_location))
             self.(enable_random_delays)
             (S (S self.(rng)))
  else self.

(** [simulate_delivery] *)
Definition simulate_delivery (self : FastBoxDeliverySystem)
    (enable_delays new_agent_mid_day : bool) : result FastBoxDeliverySystem :=
  let self := set_enable_random_delays self enable_delays in
  let self := if new_agent_mid_day then _add_new_agent_mid_day self else self in
  assignments <- assign_packages_to_agents self ;;
  agents_loop self (Dict.items assignments).

End Simulation.

(** ** Reporting: [calculate_efficiency], [generate_report] *)

Section Reporting.

(** The builtin [round(x, 2)]. *)
Variable round2 : float -> float.

(** The first loop of [calculate_efficiency]: one record per agent. *)
Definition agent_report (stats : AgentStats) : AgentReport :=
  let efficiency :=
    if (0 <? stats.(packages_delivered))%nat
    then (stats.(total_distance) / PyFloat.of_nat stats.(packages_delivered))%float
    else 0%float in
  mkAgentReport stats.(packages_delivered)
                (round2 stats.(total_distance))
                (round2 efficiency).

Definition report_entries (agent_stats : dict string AgentStats)
  : dict string AgentReport :=
  fold_left (fun report a => Dict.setitem report (fst a) (agent_report (snd a)))
            (Dict.items agent_stats) [].

(** The second loop: the running best agent and best efficiency. *)
Fixpoint best_agent_loop (entries : list (string * AgentReport))
    (best_agent : option string) (best_efficiency : float) : option string :=
  match entries with
  | [] => best_agent
  | (agent_id, data) :: rest =>
      if (0 <? data.(rep_packages_delivered))%nat
         && (data.(rep_efficiency) <? best_efficiency)%float
      then best_agent_loop rest (Some agent_id) data.(rep_efficiency)
      else best_agent_loop rest best_agent best_efficiency
  end.

(** [calculate_efficiency].  The records are all in place before the
    designator is stored, so the second loop only ever reads records. *)
Definition calculate_efficiency (self : FastBoxDeliverySystem) : Report :=
  let entries := report_entries self.(agent_stats) in
  let report : Report := map (fun kv => (fst kv, Entry (snd kv))) entries in
  let best_agent := best_agent_loop (Dict.items entries) None PyFloat.inf in
  match best_agent with
  | Some a => if truthy a then Dict.setitem report "best_agent"%string (Designator a)
              else report
  | None => report
  end.

(** [report[agent_id]['packages_delivered']] *)
Definition delivered_of (v : report_value) : result nat :=
  match v with
  | Entry e => Ok e.(rep_packages_delivered)
  | Designator _ => Raise TypeError
  end.

(** The generator expression summed in [generate_report]. *)
Fixpoint total_delivered (report : Report) (ks : list string) : result nat :=
  match ks with
  | [] => Ok 0
  | agent_id :: rest =>
      if negb (String.eqb agent_id "best_agent")
      then v <- getitem report agent_id ;;
           n <- delivered_of v ;;
           m <- total_delivered report rest ;;
           Ok (n + m)
      else total_delivered report rest
  end.

(** [generate_report]: the report it returns, and whether it printed the
    "Not all packages were delivered" warning. *)
Definition generate_report (self : FastBoxDeliverySystem) : result (Report * bool) :=
  let report := calculate_efficiency self in
  total <- total_delivered report (Dict.keys report) ;;
  Ok (report, negb (Nat.eqb total (List.length self.(packages)))).

End Reporting.

(** ** An executable model of [round(x, 2)]

    CPython rounds the exact binary value to two decimals, ties to even, and
    returns the double nearest to that decimal.  For [|x| * 100 < 2^53] the
    decimal is [n / 100] with [n] an exactly representable integer, and the
    correctly rounded quotient is that nearest double; above, and for
    integral values, zeros, infinities and NaN, [x] itself is returned. *)

Definition round_half_even_div (a b : Z) : Z :=
  let q := (a / b)%Z in
  let r := (a mod b)%Z in
  match (2 * r ?= b)%Z with
  | Lt => q
  | Gt => (q + 1)%Z
  | Eq => if Z.even q then q else (q + 1)%Z
  end.

Definition py_round2 (x : float) : float :=
  match Prim2SF x with
  | S754_finite s m e =>
      if (0 <=? e)%Z then x
      else
        let n := round_half_even_div (100 * Z.pos m) (2 ^ (- e)) in
        if (n <? 2 ^ 53)%Z then
          let q := (of_uint63 (Uint63.of_Z n) / 100)%float in
          if s then (- q)%float else q
        else x
  | _ => x
  end.

(** ** Export: [export_top_performer_csv] *)

(** The row of the top performer, with the values handed to
    [csv.DictWriter] (which formats each with [str]); [row_timestamp] is
    [datetime.now().isoformat()]. *)
Record TopPerformerRow : Type := mkTopPerformerRow {
  row_agent_id : string;
  row_packages_delivered : nat;
  row_total_distance : float;
  row_efficiency : float;
  row_timestamp : string
}.

Inductive csv_line : Type :=
| CsvHeader (names : list string)
| CsvRow (r : TopPerformerRow).

Definition fieldnames : list string :=
  ["agent_id"; "packages_delivered"; "total_distance"; "efficiency"; "timestamp"]%string.

(** [export_top_performer_csv]: the lines of the file it has written when it
    ends ([None] when it opened no file), and how it ends: normally, telling
    whether it exported, or with an exception.  The report is indexed with
    the value found under ['best_agent'] (a per-agent record there is not
    hashable: [TypeError]), and the value found there is subscripted as a
    record once the header is written (a string there: [TypeError]).
    Opening and writing the file are taken to succeed. *)
Definition export_top_performer_csv (timestamp : string) (report : Report)
  : option (list csv_line) * result bool :=
  match Dict.get report "best_agent"%string with
  | None => (None, Ok false)
  | Some (Entry _) => (None, Raise TypeError)
  | Some (Designator best_agent_id) =>
      match Dict.get report best_agent_id with
      | None => (None, Raise (KeyError (Some best_agent_id)))
      | Some (Entry best_agent_data) =>
          (Some [CsvHeader fieldnames;
                 CsvRow (mkTopPerformerRow best_agent_id
                        best_agent_data.(rep_packages_delivered)
                        best_agent_data.(rep_total_distance)
                        best_agent_data.(rep_efficiency)
                        timestamp)],
           Ok true)
      | Some (Designator _) => (Some [CsvHeader fieldnames], Raise TypeError)
      end
  end.

(** * Properties *)

(** ** Float facts, from the specification of the primitive operations *)

Module FloatFacts.

Local Open Scope float_scope.

Lemma SFcompare_lt_trans (x y z : spec_float) :
  SFcompare x y = Some Lt -> SFcompare y z = Some Lt -> SFcompare x z = Some Lt.
Proof.
  destruct x as [sx|sx| |sx mx ex], y as [sy|sy| |sy my ey], z as [sz|sz| |sz mz ez];
    simpl; try discriminate;
    try (destruct sx, sy; discriminate); try (destruct sy, sz; discriminate);
    try (destruct sx, sy, sz; simpl; congruence).
  destruct sx, sy, sz; simpl; try congruence;
    destruct (Z.compare_spec ex ey), (Z.compare_spec ey ez), (Z.compare_spec ex ez);
    try congruence; try lia; subst;
    rewrite ?Pos.compare_cont_spec; simpl;
    destruct (Pos.compare_spec mx my), (Pos.compare_spec my mz), (Pos.compare_spec mx mz);
    simpl; try congruence; try lia.
Qed.

Lemma SFcompare_le_lt_trans (x y z : spec_float) :
  SFcompare x y = Some Lt \/ SFcompare x y = Some Eq ->
  SFcompare y z = Some Lt -> SFcompare x z = Some Lt.
Proof.
  destruct x as [sx|sx| |sx mx ex], y as [sy|sy| |sy my ey], z as [sz|sz| |sz mz ez];
    simpl; try (intros [?|?]; discriminate); try discriminate;
    try (destruct sx, sy; intros [?|?]; discriminate);
    try (destruct sy, sz; intros [?|?]; discriminate);
    try (destruct sx, sy, sz; simpl; intros [?|?]; congruence).
  destruct sx, sy, sz; simpl; try (intros [?|?]; congruence);
    destruct (Z.compare_spec ex ey), (Z.compare_spec ey ez), (Z.compare_spec ex ez);
    try (intros [?|?]; congruence); try lia; subst;
    rewrite ?Pos.compare_cont_spec; simpl;
    destruct (Pos.compare_spec mx my), (Pos.compare_spec my mz), (Pos.compare_spec mx mz);
    simpl; try (intros [?|?]; congruence); try lia.
Qed.

(** [<] on floats is transitive (comparisons with NaN are all false). *)
Lemma ltb_trans (x y z : float) :
  (x <? y) = true -> (y <? z) = true -> (x <? z) = true.
Proof.
  rewrite !ltb_spec. unfold SFltb.
  destruct (SFcompare (Prim2SF x) (Prim2SF y)) as [[]|] eqn:E1; try discriminate.
  destruct (SFcompare (Prim2SF y) (Prim2SF z)) as [[]|] eqn:E2; try discriminate.
  now rewrite (SFcompare_lt_trans _ _ _ E1 E2).
Qed.

Lemma leb_ltb_trans (x y z : float) :
  (x <=? y) = true -> (y <? z) = true -> (x <? z) = true.
Proof.
  rewrite !ltb_spec, leb_spec. unfold SFltb, SFleb.
  destruct (SFcompare (Prim2SF x) (Prim2SF y)) as [[]|] eqn:E1; try discriminate;
    destruct (SFcompare (Prim2SF y) (Prim2SF z)) as [[]|] eqn:E2; try discriminate;
    intros _ _.
  - now rewrite (SFcompare_le_lt_trans _ _ _ (or_intror E1) E2).
  - now rewrite (SFcompare_le_lt_trans _ _ _ (or_introl E1) E2).
Qed.

(** [x < y] excludes [y <= x]. *)
Lemma ltb_not_leb (x y : float) : (x <? y) = true -> (y <=? x) = false.
Proof.
  intros H. destruct (y <=? x) eqn:E; [|reflexivity].
  pose proof (leb_ltb_trans _ _ _ E H) as C.
  rewrite ltb_spec in C. unfold SFltb in C.
  destruct (Prim2SF y) as [s|s| |s m e]; simpl in C; try discriminate.
  - destruct s; discriminate.
  - destruct s; simpl in C; rewrite Z.compare_refl, Pos.compare_cont_spec,
      Pos.compare_refl in C; discriminate.
Qed.



End FloatFacts.

(** ** Dictionary laws *)

Class KeyOk (K : Type) `{Key K} : Prop :=
  key_eqb_eq : forall a b : K, key_eqb a b = true <-> a = b.

Lemma option_string_eqb_eq (a b : option string) :
  option_string_eqb a b = true <-> a = b.
Proof.
  destruct a as [x|], b as [y|]; simpl; try (split; congruence).
  rewrite String.eqb_eq. split; congruence.
Qed.

#[export] Instance string_KeyOk : KeyOk string := String.eqb_eq.
#[export] Instance option_string_KeyOk : KeyOk (option string) := option_string_eqb_eq.

Module DictFacts.
Section DictFacts.
Context {K V : Type} `{KeyOk K}.

Implicit Types (d : Dict.t K V) (k : K) (v : V).

Lemma key_eqb_spec k k' : reflect (k = k') (key_eqb k k').
Proof. apply iff_reflect. symmetry. apply key_eqb_eq. Qed.

Lemma key_eqb_refl k : key_eqb k k = true.
Proof. destruct (key_eqb_spec k k); congruence. Qed.

Lemma key_eqb_neq k k' : k <> k' -> key_eqb k k' = false.
Proof. intros N. destruct (key_eqb_spec k k'); congruence. Qed.

Lemma get_setitem_eq d k v : Dict.get (Dict.setitem d k v) k = Some v.
Proof.
  induction d as [|[k' v'] d IH]; simpl.
  - now rewrite key_eqb_refl.
  - destruct (key_eqb_spec k' k) as [->|N]; simpl.
    + now rewrite key_eqb_refl.
    + now rewrite (key_eqb_neq _ _ N).
Qed.

Lemma get_setitem_neq d k k' v :
  k <> k' -> Dict.get (Dict.setitem d k v) k' = Dict.get d k'.
Proof.
  intros N. induction d as [|[k0 v0] d IH]; simpl.
  - now rewrite (key_eqb_neq _ _ N).
  - destruct (key_eqb_spec k0 k) as [->|N0]; simpl.
    + now rewrite (key_eqb_neq _ _ N).
    + now rewrite IH.
Qed.

Lemma get_Some_In d k v : Dict.get d k = Some v -> In k (Dict.keys d).
Proof.
  induction d as [|[k' v'] d IH]; simpl; [discriminate|].
  destruct (key_eqb_spec k' k) as [->|N]; auto.
Qed.

Lemma get_None_notin d k : Dict.get d k = None -> ~ In k (Dict.keys d).
Proof.
  induction d as [|[k' v'] d IH]; simpl; [tauto|].
  destruct (key_eqb_spec k' k) as [->|N]; [discriminate|].
  intros E [C|C]; [congruence|]. now apply IH.
Qed.

Lemma In_get_Some d k : In k (Dict.keys d) -> exists v, Dict.get d k = Some v.
Proof.
  intros I. destruct (Dict.get d k) eqn:E; eauto.
  now apply get_None_notin in E.
Qed.

Lemma keys_setitem_present d k v :
  In k (Dict.keys d) -> Dict.keys (Dict.setitem d k v) = Dict.keys d.
Proof.
  induction d as [|[k' v'] d IH]; simpl; [tauto|].
  destruct (key_eqb_spec k' k) as [->|N]; simpl; [reflexivity|].
  intros [C|C]; [congruence|]. f_equal. now apply IH.
Qed.

Lemma keys_setitem_absent d k v :
  ~ In k (Dict.keys d) -> Dict.keys (Dict.setitem d k v) = Dict.keys d ++ [k].
Proof.
  induction d as [|[k' v'] d IH]; simpl; [reflexivity|].
  destruct (key_eqb_spec k' k) as [->|N]; simpl; [tauto|].
  intros C. f_equal. apply IH. tauto.
Qed.

Lemma setitem_absent d k v :
  ~ In k (Dict.keys d) -> Dict.setitem d k v = d ++ [(k, v)].
Proof.
  induction d as [|[k' v'] d IH]; simpl; [reflexivity|].
  destruct (key_eqb_spec k' k) as [->|N]; simpl; [tauto|].
  intros C. f_equal. apply IH. tauto.
Qed.

Lemma NoDup_keys_setitem d k v :
  NoDup (Dict.keys d) -> NoDup (Dict.keys (Dict.setitem d k v)).
Proof.
  intros ND. destruct (in_dec (fun a b => reflect_dec _ _ (key_eqb_spec a b)) k (Dict.keys d)) as [I|I].
  - now rewrite keys_setitem_present.
  - rewrite keys_setitem_absent by assumption.
    apply NoDup_app; [assumption|repeat constructor; simpl; tauto|].
    intros x Hx [<-|[]]. tauto.
Qed.

(** With distinct keys, looking a key up finds the item stored with it. *)
Lemma In_items_get d k v :
  NoDup (Dict.keys d) -> In (k, v) d -> Dict.get d k = Some v.
Proof.
  induction d as [|[k' v'] d IH]; simpl; [tauto|].
  intros ND [E|I]; inversion ND as [|? ? N ND']; subst.
  - inversion E; subst. now rewrite key_eqb_refl.
  - destruct (key_eqb_spec k' k) as [->|_]; [|now apply IH].
    exfalso. apply N. change (In (fst (k, v)) (map fst d)). now apply in_map.
Qed.

Lemma get_In_items d k v : Dict.get d k = Some v -> In (k, v) d.
Proof.
  induction d as [|[k' v'] d IH]; simpl; [discriminate|].
  destruct (key_eqb_spec k' k) as [->|N]; [intros [= ->]; auto|auto].
Qed.

Lemma setitem_get_same d k v :
  Dict.get d k = Some v -> Dict.setitem d k v = d.
Proof.
  induction d as [|[k' v'] d IH]; simpl; [discriminate|].
  destruct (key_eqb_spec k' k) as [->|N]; [now intros [= ->]|].
  intros E. now rewrite IH.
Qed.

Lemma setitem_setitem d k v v' :
  Dict.setitem (Dict.setitem d k v) k v' = Dict.setitem d k v'.
Proof.
  induction d as [|[k0 v0] d IH]; simpl.
  - now rewrite key_eqb_refl.
  - destruct (key_eqb_spec k0 k) as [->|N]; simpl.
    + now rewrite key_eqb_refl.
    + rewrite (key_eqb_neq _ _ N). now rewrite IH.
Qed.

End DictFacts.
End DictFacts.

(** ** Nearest agent *)

Module Nearest.

Import FloatFacts.
Local Open Scope float_scope.

(** Distance from the tracked location of [agent_id] to [w]. *)
Definition agent_distance (stats : dict string AgentStats) (w : point)
    (agent_id : string) : float :=
  match Dict.get stats agent_id with
  | Some st => calculate_distance st.(current_location) w
  | None => nan
  end.

(** What the scan knows after the agents [seen]: nobody seen is within
    reach ([None]), or [a] is the first strict minimum among them. *)
Definition scanned (d : string -> float) (seen : list string)
    (nearest : option string) (m : float) : Prop :=
  match nearest with
  | None => m = PyFloat.inf /\ forall b, In b seen -> (d b <? PyFloat.inf) = false
  | Some a =>
      m = d a /\ (d a <? PyFloat.inf) = true /\
      (forall b, In b seen -> (d b <? d a) = false) /\
      exists before after, seen = before ++ a :: after /\
        forall b, In b before -> (d b <=? d a) = false
  end.

Lemma ltb_leb (x y : float) : (x <? y) = true -> (x <=? y) = true.
Proof.
  rewrite ltb_spec, leb_spec. unfold SFltb, SFleb.
  now destruct (SFcompare (Prim2SF x) (Prim2SF y)) as [[]|].
Qed.

Lemma ltb_irrefl (x : float) : (x <? x) = false.
Proof.
  destruct (x <? x) eqn:E; [|reflexivity].
  pose proof (ltb_not_leb _ _ E) as N. pose proof (ltb_leb _ _ E). congruence.
Qed.

Lemma not_ltb_above (x y z : float) :
  (x <? z) = false -> (y <? z) = true -> (x <=? y) = false.
Proof.
  intros N L. destruct (x <=? y) eqn:E; [|reflexivity].
  pose proof (leb_ltb_trans _ _ _ E L). congruence.
Qed.

Lemma not_ltb_below (x y z : float) :
  (x <? z) = false -> (y <? z) = true -> (x <? y) = false.
Proof.
  intros N L. destruct (x <? y) eqn:E; [|reflexivity].
  pose proof (ltb_trans _ _ _ E L). congruence.
Qed.

Lemma scanned_step (d : string -> float) seen nearest m x :
  scanned d seen nearest m ->
  scanned d (seen ++ [x])
          (if d x <? m then Some x else nearest)
          (if d x <? m then d x else m).
Proof.
  intros S. destruct (d x <? m) eqn:L.
  - assert (R : (d x <? PyFloat.inf) = true /\
                forall b, In b seen -> (d b <? m) = false).
    { destruct nearest as [a|]; simpl in S.
      - destruct S as (-> & Ha & Hmin & _). split; [|assumption].
        now apply ltb_trans with (d a).
      - destruct S as (-> & Hn). now split. }
    destruct R as [Hx Hm]. simpl. repeat split; try assumption.
    + intros b I. apply in_app_iff in I as [I|[<-|[]]].
      * now apply not_ltb_below with m; auto.
      * apply ltb_irrefl.
    + exists seen, []. split; [reflexivity|].
      intros b I. apply not_ltb_above with m; auto.
  - destruct nearest as [a|]; simpl in *.
    + destruct S as (-> & Ha & Hmin & before & after & -> & Hb).
      repeat split; try assumption.
      * intros b I. apply in_app_iff in I as [I|[<-|[]]]; auto.
      * exists before, (after ++ [x]). split; [|assumption].
        now rewrite <- app_assoc.
    + destruct S as (-> & Hn). split; [reflexivity|].
      intros b I. apply in_app_iff in I as [I|[<-|[]]]; auto.
Qed.

Lemma find_nearest_agent_loop_scanned stats w ids :
  forall seen nearest m,
    (forall a, In a ids -> In a (Dict.keys stats)) ->
    scanned (agent_distance stats w) seen nearest m ->
    exists r m',
      find_nearest_agent_loop stats w ids nearest m = Ok r /\
      scanned (agent_distance stats w) (seen ++ ids) r m'.
Proof.
  induction ids as [|x ids IH]; intros seen nearest m Hin S; simpl.
  - exists nearest, m. now rewrite app_nil_r.
  - destruct (DictFacts.In_get_Some stats x (Hin x (or_introl eq_refl))) as [st E].
    unfold getitem. rewrite E. simpl.
    pose proof (scanned_step (agent_distance stats w) seen nearest m x S) as S'.
    assert (D : agent_distance stats w x = calculate_distance (current_location st) w)
      by (unfold agent_distance; now rewrite E).
    rewrite D in S'.
    replace (seen ++ x :: ids) with ((seen ++ [x]) ++ ids)
      by (now rewrite <- app_assoc).
    destruct (calculate_distance (current_location st) w <? m);
      (apply IH; [intros a I; apply Hin; now right | exact S']).
Qed.

(** [find_nearest_agent] never raises when every agent has statistics, and
    its answer is the first strict minimum of the distances, if any agent
    is within reach. *)
Lemma find_nearest_agent_scanned (self : FastBoxDeliverySystem) (w : point) :
  Dict.keys self.(agent_stats) = Dict.keys self.(agents) ->
  exists r m,
    find_nearest_agent self w = Ok r /\
    scanned (agent_distance self.(agent_stats) w) (Dict.keys self.(agents)) r m.
Proof.
  intros K. unfold find_nearest_agent.
  destruct (find_nearest_agent_loop_scanned self.(agent_stats) w
              (Dict.keys self.(agents)) [] None PyFloat.inf) as (r & m & E & S).
  - intros a I. now rewrite K.
  - simpl. split; [reflexivity|]. intros b [].
  - now exists r, m.
Qed.

End Nearest.

(** ** Assignment *)

Module Assignment.

Import DictFacts Nearest.

(** Every agent has statistics, listed in the same order, and agent
    identifiers are distinct (both hold after [init] and are kept by every
    method). *)
Definition stats_ok (self : FastBoxDeliverySystem) : Prop :=
  Dict.keys self.(agent_stats) = Dict.keys self.(agents) /\
  NoDup (Dict.keys self.(agents)).

(** The warehouse reference of [p] is a key of the warehouse mapping. *)
Definition resolves (whs : dict string point) (p : Package) : Prop :=
  exists w, getitem_ref whs p.(warehouse) = Ok w.

(** The agent [assign_packages_to_agents] gives [p] to, if any. *)
Definition assignee (self : FastBoxDeliverySystem) (p : Package) : option string :=
  match getitem_ref self.(warehouses) p.(warehouse) with
  | Ok w =>
      match find_nearest_agent self w with
      | Ok (Some a) => if truthy a then Some a else None
      | _ => None
      end
  | Raise _ => None
  end.

Definition assigned_to (self : FastBoxDeliverySystem) (a : string) (p : Package) : bool :=
  match assignee self p with
  | Some b => String.eqb b a
  | None => false
  end.

Definition is_assigned (self : FastBoxDeliverySystem) (p : Package) : bool :=
  match assignee self p with Some _ => true | None => false end.

(** Number of packages held by an assignment map. *)
Definition total_len {K A : Type} (d : Dict.t K (list A)) : nat :=
  fold_right (fun kv n => List.length (snd kv) + n) 0 d.

Lemma total_len_setitem_append {A : Type} (d : dict string (list A)) k l x :
  Dict.get d k = Some l ->
  total_len (Dict.setitem d k (l ++ [x])) = S (total_len d).
Proof.
  induction d as [|[k' l'] d IH]; simpl; [discriminate|].
  destruct (String.eqb_spec k' k) as [->|N]; simpl.
  - intros [= ->]. rewrite length_app. simpl. lia.
  - intros E. rewrite (IH E). lia.
Qed.

Lemma assignee_in_agents self p a :
  stats_ok self -> assignee self p = Some a -> In a (Dict.keys self.(agents)).
Proof.
  intros [K _]. unfold assignee.
  destruct (getitem_ref _ _) as [w|]; [|discriminate].
  destruct (find_nearest_agent_scanned self w K) as (r & m & E & S).
  rewrite E. destruct r as [b|]; [|discriminate].
  destruct (truthy b); [|discriminate]. intros [= <-].
  simpl in S. destruct S as (_ & _ & _ & before & after & -> & _).
  apply in_app_iff. right. now left.
Qed.

(** The loop of [assign_packages_to_agents]: it completes when every
    warehouse reference resolves, keeps the keys of the map, and appends
    each package, in order, to the list of its assignee. *)
Lemma assign_loop_spec self pkgs :
  stats_ok self ->
  Forall (resolves self.(warehouses)) pkgs ->
  forall asg,
    Dict.keys asg = Dict.keys self.(agents) ->
    exists asg',
      assign_loop self pkgs asg = Ok asg' /\
      Dict.keys asg' = Dict.keys self.(agents) /\
      total_len asg' = total_len asg + List.length (filter (is_assigned self) pkgs) /\
      forall a l, Dict.get asg a = Some l ->
                  Dict.get asg' a = Some (l ++ filter (assigned_to self a) pkgs).
Proof.
  intros OK R. induction R as [|p pkgs [w Hw] R IH]; intros asg K; simpl.
  - exists asg. repeat split; auto. intros a l E. now rewrite app_nil_r.
  - rewrite Hw. simpl.
    pose proof (assignee_in_agents self p) as Hin.
    unfold is_assigned, assigned_to, assignee in *. rewrite Hw in *.
    destruct (find_nearest_agent_scanned self w (proj1 OK)) as (r & m & E & _).
    rewrite E in *. simpl.
    destruct r as [b|]; [destruct (truthy b) eqn:T|].
    + assert (I : In b (Dict.keys asg)) by (rewrite K; now apply Hin).
      destruct (In_get_Some asg b I) as [l El].
      unfold append_at, getitem. rewrite El. simpl.
      destruct (IH (Dict.setitem asg b (l ++ [p]))) as (asg' & E' & K' & T' & G').
      { now rewrite keys_setitem_present. }
      exists asg'. repeat split; auto.
      * rewrite T', (total_len_setitem_append asg b l p El). simpl. lia.
      * intros a l0 E0. destruct (String.eqb_spec b a) as [->|N].
        -- rewrite (G' a (l ++ [p])) by apply get_setitem_eq.
           rewrite El in E0. inversion E0; subst. now rewrite <- app_assoc.
        -- apply G'. now rewrite get_setitem_neq.
    + destruct (IH asg K) as (asg' & E' & K' & T' & G').
      exists asg'. repeat split; auto.
    + destruct (IH asg K) as (asg' & E' & K' & T' & G').
      exists asg'. repeat split; auto.
Qed.

Lemma get_empty_lists (ids : list string) (a : string) :
  In a ids ->
  Dict.get (map (fun agent_id => (agent_id, @nil Package)) ids) a = Some [].
Proof.
  induction ids as [|x ids IH]; simpl; [tauto|].
  destruct (String.eqb_spec x a) as [->|N]; [reflexivity|].
  intros [C|I]; [congruence|auto].
Qed.

Lemma total_len_empty_lists (ids : list string) :
  total_len (map (fun agent_id => (agent_id, @nil Package)) ids) = 0.
Proof. induction ids; simpl; auto. Qed.

(** [assign_packages_to_agents] on a catalog whose references resolve:
    every agent is a key, in agent order, and holds exactly the packages
    whose assignee it is, in package order. *)
Lemma assign_packages_to_agents_spec self :
  stats_ok self ->
  Forall (resolves self.(warehouses)) self.(packages) ->
  exists asg,
    assign_packages_to_agents self = Ok asg /\
    Dict.keys asg = Dict.keys self.(agents) /\
    total_len asg = List.length (filter (is_assigned self) self.(packages)) /\
    forall a, In a (Dict.keys self.(agents)) ->
              Dict.get asg a = Some (filter (assigned_to self a) self.(packages)).
Proof.
  intros OK R. unfold assign_packages_to_agents.
  destruct (assign_loop_spec self self.(packages) OK R
              (map (fun agent_id => (agent_id, @nil Package)) (Dict.keys self.(agents))))
    as (asg & E & K & T & G).
  { unfold Dict.keys. rewrite map_map. simpl. now rewrite map_id. }
  exists asg. repeat split; auto.
  - now rewrite T, total_len_empty_lists.
  - intros a I. now apply (G a []), get_empty_lists.
Qed.

End Assignment.

(** ** The route of one agent *)

Module Route.

Import DictFacts Assignment.

Section Route.

Variable random : nat -> float.

(** The multiplier of the leg that starts when the generator stands at
    draw [k], and where the generator stands after [n] legs. *)
Definition leg_multiplier (delays : bool) (k : nat) : float :=
  if delays then (1 + uniform random k 0 PyFloat.f0_3)%float else 1%float.

Definition advance (delays : bool) (k n : nat) : nat :=
  if delays then k + n else k.

(** The legs delivering [pkgs] one after the other, starting at [from]. *)
Fixpoint delivery_steps (delays : bool) (k : nat) (from : point)
    (pkgs : list Package) : list RouteStep :=
  match pkgs with
  | [] => []
  | p :: rest =>
      mkRouteStep from p.(destination)
        (calculate_distance from p.(destination) * leg_multiplier delays k)%float
        delivery
      :: delivery_steps delays (advance delays k 1) p.(destination) rest
  end.

Definition end_of_deliveries (from : point) (pkgs : list Package) : point :=
  last (map destination pkgs) from.

(** The legs of a whole route: for each group, the leg to its warehouse and
    then its deliveries.  Groups whose warehouse does not resolve end the
    route (the simulator raises there). *)
Fixpoint route_steps (delays : bool) (whs : dict string point) (k : nat)
    (from : point) (groups : list (option string * list Package)) : list RouteStep :=
  match groups with
  | [] => []
  | (w, ps) :: rest =>
      match getitem_ref whs w with
      | Ok wl =>
          mkRouteStep from wl
            (calculate_distance from wl * leg_multiplier delays k)%float to_warehouse
          :: delivery_steps delays (advance delays k 1) wl ps
          ++ route_steps delays whs (advance delays k (1 + List.length ps))
                         (end_of_deliveries wl ps) rest
      | Raise _ => []
      end
  end.

Fixpoint route_end (whs : dict string point) (from : point)
    (groups : list (option string * list Package)) : point :=
  match groups with
  | [] => from
  | (w, ps) :: rest =>
      match getitem_ref whs w with
      | Ok wl => route_end whs (end_of_deliveries wl ps) rest
      | Raise _ => from
      end
  end.

(** The effect of one recorded leg on the statistics of its agent. *)
Definition apply_step (st : AgentStats) (s : RouteStep) : AgentStats :=
  match s.(step_type) with
  | to_warehouse =>
      record_to_warehouse s.(step_from) s.(step_to) s.(step_distance) st
  | delivery =>
      record_delivery s.(step_from) s.(step_to) s.(step_distance) st
  end.

Definition apply_steps (st : AgentStats) (steps : list RouteStep) : AgentStats :=
  fold_left apply_step steps st.

Lemma advance_advance delays k n m :
  advance delays (advance delays k n) m = advance delays k (n + m).
Proof. unfold advance. destruct delays; lia. Qed.

Lemma last_cons_default {A : Type} (l : list A) (x d : A) :
  last (x :: l) d = last l x.
Proof.
  revert x d. induction l as [|y l IH]; intros x d; [reflexivity|].
  change (last (x :: y :: l) d) with (last (y :: l) d).
  now rewrite !IH.
Qed.

Lemma end_of_deliveries_cons from p pkgs :
  end_of_deliveries from (p :: pkgs) = end_of_deliveries p.(destination) pkgs.
Proof. unfold end_of_deliveries. simpl map. apply last_cons_default. Qed.

Lemma deliver_loop_spec whs ags pks delays a pkgs :
  forall stats k from st,
    Dict.get stats a = Some st ->
    deliver_loop random (mkSystem whs ags pks stats delays k) a from pkgs =
    Ok (end_of_deliveries from pkgs,
        mkSystem whs ags pks
          (Dict.setitem stats a (apply_steps st (delivery_steps delays k from pkgs)))
          delays (advance delays k (List.length pkgs))).
Proof.
  induction pkgs as [|p pkgs IH]; intros stats k from st E.
  - simpl. rewrite (setitem_get_same _ _ _ E).
    unfold advance. destruct delays; now rewrite ?Nat.add_0_r.
  - cbn [deliver_loop delivery_steps].
    assert (S : simulate_random_delay random (mkSystem whs ags pks stats delays k) =
                (leg_multiplier delays k,
                 mkSystem whs ags pks stats delays (advance delays k 1))).
    { unfold simulate_random_delay, leg_multiplier, advance, set_rng. simpl.
      destruct delays; simpl; [|reflexivity]. now rewrite Nat.add_1_r. }
    rewrite S. unfold update_stats, getitem. simpl. rewrite E. simpl.
    unfold set_agent_stats. simpl.
    rewrite (IH _ _ _ _ (get_setitem_eq stats a _)).
    rewrite setitem_setitem, advance_advance, end_of_deliveries_cons.
    reflexivity.
Qed.

Lemma warehouse_loop_spec whs ags pks delays a groups :
  Forall (fun g => exists wl, getitem_ref whs (fst g) = Ok wl) groups ->
  forall stats k from st,
    Dict.get stats a = Some st ->
    warehouse_loop random (mkSystem whs ags pks stats delays k) a from groups =
    Ok (route_end whs from groups,
        mkSystem whs ags pks
          (Dict.setitem stats a (apply_steps st (route_steps delays whs k from groups)))
          delays
          (advance delays k (List.length (route_steps delays whs k from groups)))).
Proof.
  intros R. induction R as [|[w ps] groups [wl Hw] R IH]; intros stats k from st E.
  - simpl. rewrite (setitem_get_same _ _ _ E).
    unfold advance. destruct delays; now rewrite ?Nat.add_0_r.
  - simpl in Hw. cbn [warehouse_loop route_steps route_end]. simpl warehouses.
    rewrite Hw. simpl bind.
    assert (S : simulate_random_delay random (mkSystem whs ags pks stats delays k) =
                (leg_multiplier delays k,
                 mkSystem whs ags pks stats delays (advance delays k 1))).
    { unfold simulate_random_delay, leg_multiplier, advance, set_rng. simpl.
      destruct delays; simpl; [|reflexivity]. now rewrite Nat.add_1_r. }
    rewrite S. unfold update_stats, getitem. simpl agent_stats. rewrite E. simpl bind.
    unfold set_agent_stats. simpl.
    rewrite (deliver_loop_spec whs ags pks delays a ps _ _ _ _ (get_setitem_eq stats a _)).
    simpl bind. rewrite setitem_setitem.
    rewrite (IH _ _ _ _ (get_setitem_eq _ a _)).
    rewrite setitem_setitem, !advance_advance.
    f_equal. f_equal. f_equal.
    + f_equal. unfold apply_steps. simpl. now rewrite fold_left_app.
    + unfold advance. destruct delays; [|reflexivity].
      simpl. rewrite length_app. 
      assert (L : forall k0 f, List.length (delivery_steps true k0 f ps) = List.length ps).
      { clear. induction ps; intros; simpl; auto. }
      rewrite L. simpl. lia.
Qed.

End Route.
End Route.

(** ** Grouping by warehouse *)

Module Grouping.

Import DictFacts.

(** The distinct warehouse references of a package list, in the order in
    which each is first met. *)
Definition first_seen (ws : list (option string)) : list (option string) :=
  fold_left (fun seen w => if existsb (key_eqb w) seen then seen else seen ++ [w])
            ws [].

(** The packages of one warehouse, in assignment order. *)
Definition group_of (w : option string) (pkgs : list Package) : list Package :=
  filter (fun p => key_eqb p.(warehouse) w) pkgs.

(** The stable partition of a package list by warehouse. *)
Definition groups_of (pkgs : list Package) : list (option string * list Package) :=
  map (fun w => (w, group_of w pkgs)) (first_seen (map warehouse pkgs)).

Lemma existsb_key_eqb (w : option string) (l : list (option string)) :
  existsb (key_eqb w) l = true <-> In w l.
Proof.
  rewrite existsb_exists. split.
  - intros (x & I & E). apply key_eqb_eq in E. now subst.
  - intros I. exists w. split; [assumption|apply key_eqb_refl].
Qed.

Lemma first_seen_snoc ws w :
  first_seen (ws ++ [w]) =
  if existsb (key_eqb w) (first_seen ws) then first_seen ws else first_seen ws ++ [w].
Proof. unfold first_seen. now rewrite fold_left_app. Qed.

Lemma first_seen_In ws : forall w, In w (first_seen ws) <-> In w ws.
Proof.
  induction ws as [|x ws IH] using rev_ind; intros w; [simpl; tauto|].
  rewrite first_seen_snoc, in_app_iff. cbn [In].
  destruct (existsb (key_eqb x) (first_seen ws)) eqn:E.
  - apply existsb_key_eqb, IH in E. rewrite IH.
    split; [tauto|]. intros [I|[<-|[]]]; auto.
  - rewrite in_app_iff, IH. cbn [In]. tauto.
Qed.

Lemma first_seen_NoDup ws : NoDup (first_seen ws).
Proof.
  induction ws as [|x ws IH] using rev_ind; [constructor|].
  rewrite first_seen_snoc.
  destruct (existsb (key_eqb x) (first_seen ws)) eqn:E; [assumption|].
  apply NoDup_app; [assumption|repeat constructor; simpl; tauto|].
  intros y I [<-|[]].
  apply existsb_key_eqb in I. congruence.
Qed.

Lemma group_of_snoc w pkgs p :
  group_of w (pkgs ++ [p]) =
  group_of w pkgs ++ (if key_eqb p.(warehouse) w then [p] else []).
Proof.
  unfold group_of. rewrite filter_app. cbn [filter].
  now destruct (key_eqb (warehouse p) w).
Qed.

Lemma group_of_absent w pkgs : ~ In w (map warehouse pkgs) -> group_of w pkgs = [].
Proof.
  unfold group_of. induction pkgs as [|p pkgs IH]; cbn [map In filter]; [reflexivity|].
  intros N. destruct (key_eqb_spec p.(warehouse) w) as [E|_]; [tauto|].
  apply IH. tauto.
Qed.

Lemma get_map_present {V : Type} (f : option string -> V) ks w :
  In w ks -> Dict.get (map (fun k => (k, f k)) ks) w = Some (f w).
Proof.
  induction ks as [|k ks IH]; cbn [map In Dict.get]; [tauto|].
  destruct (key_eqb_spec k w) as [->|N]; [reflexivity|].
  intros [C|I]; [congruence|auto].
Qed.

Lemma get_map_absent {V : Type} (f : option string -> V) ks w :
  ~ In w ks -> Dict.get (map (fun k => (k, f k)) ks) w = None.
Proof.
  induction ks as [|k ks IH]; cbn [map In Dict.get]; [reflexivity|].
  destruct (key_eqb_spec k w) as [->|N]; [tauto|]. intros C. apply IH. tauto.
Qed.

Lemma setitem_map_present {V : Type} (f g : option string -> V) ks w v :
  NoDup ks -> In w ks -> g w = v -> (forall k, k <> w -> g k = f k) ->
  Dict.setitem (map (fun k => (k, f k)) ks) w v = map (fun k => (k, g k)) ks.
Proof.
  intros ND I Gw Go. induction ks as [|k ks IH]; cbn [map Dict.setitem]; [destruct I|].
  inversion ND as [|? ? Nk ND']; subst.
  destruct (key_eqb_spec k w) as [->|N].
  - f_equal. apply map_ext_in. intros k I'. rewrite Go; [reflexivity|].
    intros ->. contradiction.
  - rewrite (Go k N). f_equal. destruct I as [C|I]; [congruence|auto].
Qed.

Lemma keys_groups_of pkgs :
  Dict.keys (groups_of pkgs) = first_seen (map warehouse pkgs).
Proof. unfold groups_of, Dict.keys. rewrite map_map. simpl. apply map_id. Qed.

(** One turn of the grouping loop extends the partition by one package. *)
Lemma group_step seen p :
  (let w := p.(warehouse) in
   let pbw := if negb (Dict.contains (groups_of seen) w)
              then Dict.setitem (groups_of seen) w []
              else groups_of seen in
   append_group pbw w p) = Ok (groups_of (seen ++ [p])).
Proof.
  cbv zeta. set (w := p.(warehouse)). set (ks := first_seen (map warehouse seen)).
  assert (G : groups_of (seen ++ [p]) =
              map (fun k => (k, group_of k (seen ++ [p])))
                  (if existsb (key_eqb w) ks then ks else ks ++ [w])).
  { unfold groups_of. rewrite map_app. cbn [map]. now rewrite first_seen_snoc. }
  rewrite G. unfold Dict.contains, append_group.
  destruct (existsb (key_eqb w) ks) eqn:E.
  - apply existsb_key_eqb in E. unfold groups_of. fold ks.
    rewrite (get_map_present _ ks w E). simpl.
    rewrite (get_map_present _ ks w E). f_equal.
    apply setitem_map_present; [apply first_seen_NoDup|exact E| |].
    + rewrite group_of_snoc. fold w. now rewrite key_eqb_refl.
    + intros k N. rewrite group_of_snoc. fold w.
      rewrite key_eqb_neq by congruence. now rewrite app_nil_r.
  - assert (N : ~ In w ks).
    { intros I. apply existsb_key_eqb in I. congruence. }
    unfold groups_of. fold ks. rewrite (get_map_absent _ ks w N). simpl.
    rewrite get_setitem_eq. f_equal.
    rewrite setitem_setitem, setitem_absent.
    2:{ unfold Dict.keys. rewrite map_map. simpl. now rewrite map_id. }
    rewrite map_app. simpl. f_equal.
    + apply map_ext_in. intros k I. rewrite group_of_snoc. fold w.
      rewrite key_eqb_neq by congruence. now rewrite app_nil_r.
    + rewrite group_of_snoc. fold w. rewrite key_eqb_refl.
      rewrite group_of_absent; [reflexivity|].
      intros I. apply N. now apply first_seen_In.
Qed.

Lemma group_loop_from seen pkgs :
  group_loop pkgs (groups_of seen) = Ok (groups_of (seen ++ pkgs)).
Proof.
  revert seen. induction pkgs as [|p pkgs IH]; intros seen.
  - simpl. now rewrite app_nil_r.
  - cbn [group_loop]. pose proof (group_step seen p) as S. cbv zeta in S.
    rewrite S. cbn [bind]. rewrite IH. now rewrite <- app_assoc.
Qed.

(** The grouping loop of [simulate_delivery] computes the stable partition
    of the agent's packages by warehouse, groups in first-met order. *)
Lemma group_loop_spec pkgs : group_loop pkgs [] = Ok (groups_of pkgs).
Proof. exact (group_loop_from [] pkgs). Qed.

(** All packages of all groups. *)
Definition group_total (groups : list (option string * list Package)) : nat :=
  fold_right (fun g n => List.length (snd g) + n) 0 groups.

Lemma group_total_setitem_append (d : Dict.t (option string) (list Package)) k l x :
  Dict.get d k = Some l ->
  group_total (Dict.setitem d k (l ++ [x])) = S (group_total d).
Proof.
  induction d as [|[k' l'] d IH]; cbn [Dict.get Dict.setitem]; [discriminate|].
  destruct (key_eqb_spec k' k) as [->|N]; cbn [group_total fold_right snd].
  - intros [= ->]. rewrite length_app. simpl. lia.
  - intros E. fold (group_total (Dict.setitem d k (l ++ [x]))).
    fold (group_total d). rewrite (IH E). lia.
Qed.

Lemma group_total_setitem_nil (d : Dict.t (option string) (list Package)) k :
  Dict.get d k = None -> group_total (Dict.setitem d k []) = group_total d.
Proof.
  induction d as [|[k' l'] d IH]; cbn [Dict.get Dict.setitem]; [reflexivity|].
  destruct (key_eqb_spec k' k) as [->|N]; [discriminate|].
  intros E. cbn [group_total fold_right snd].
  fold (group_total (Dict.setitem d k [])). fold (group_total d).
  now rewrite (IH E).
Qed.

(** The partition loses and duplicates nothing. *)
Lemma group_total_groups_of pkgs : group_total (groups_of pkgs) = List.length pkgs.
Proof.
  induction pkgs as [|p pkgs IH] using rev_ind; [reflexivity|].
  pose proof (group_step pkgs p) as S. cbv zeta in S.
  unfold append_group, Dict.contains in S.
  rewrite length_app, Nat.add_1_r. rewrite <- IH.
  destruct (Dict.get (groups_of pkgs) (warehouse p)) as [l|] eqn:E; cbn [negb] in S.
  - rewrite E in S. injection S as <-. now apply group_total_setitem_append.
  - rewrite get_setitem_eq in S. injection S as <-.
    rewrite (group_total_setitem_append _ _ [] p (get_setitem_eq _ _ _)).
    now rewrite group_total_setitem_nil.
Qed.

Lemma groups_of_resolve whs pkgs :
  Forall (Assignment.resolves whs) pkgs ->
  Forall (fun g => exists wl, getitem_ref whs (fst g) = Ok wl) (groups_of pkgs).
Proof.
  intros R. apply Forall_forall. intros [w ps] I.
  unfold groups_of in I. apply in_map_iff in I as (w' & [= -> <-] & I).
  apply first_seen_In, in_map_iff in I as (p & <- & I).
  rewrite Forall_forall in R. exact (R p I).
Qed.

Lemma groups_of_nonempty p pkgs : groups_of (p :: pkgs) <> [].
Proof.
  intros E. pose proof (group_total_groups_of (p :: pkgs)) as T.
  rewrite E in T. discriminate.
Qed.

End Grouping.

(** ** The whole simulation *)

Module Fleet.

Import DictFacts Assignment Grouping Route.

Section Fleet.

Variable random : nat -> float.

(** The legs of the agent whose statistics are [st], for its packages
    [pkgs], and its statistics once the route is walked. *)
Definition agent_route (delays : bool) (whs : dict string point) (k : nat)
    (st : AgentStats) (pkgs : list Package) : list RouteStep :=
  route_steps random delays whs k st.(current_location) (groups_of pkgs).

Definition agent_after (delays : bool) (whs : dict string point) (k : nat)
    (st : AgentStats) (pkgs : list Package) : AgentStats :=
  with_location (apply_steps st (agent_route delays whs k st pkgs))
                (route_end whs st.(current_location) (groups_of pkgs)).

(** The statistics and the generator after the agents of [items] have
    walked their routes, one agent after the other. *)
Fixpoint run_agents (delays : bool) (whs : dict string point)
    (stats : dict string AgentStats) (k : nat)
    (items : list (string * list Package)) : dict string AgentStats * nat :=
  match items with
  | [] => (stats, k)
  | (a, pk) :: rest =>
      match pk, Dict.get stats a with
      | _ :: _, Some st =>
          run_agents delays whs
            (Dict.setitem stats a (agent_after delays whs k st pk))
            (advance delays k (List.length (agent_route delays whs k st pk)))
            rest
      | _, _ => run_agents delays whs stats k rest
      end
  end.

Lemma agents_loop_spec whs ags pks delays items :
  forall stats k,
    (forall a pk, In (a, pk) items ->
                  In a (Dict.keys stats) /\ Forall (resolves whs) pk) ->
    agents_loop random (mkSystem whs ags pks stats delays k) items =
    Ok (mkSystem whs ags pks
          (fst (run_agents delays whs stats k items)) delays
          (snd (run_agents delays whs stats k items))).
Proof.
  induction items as [|[a pk] items IH]; intros stats k H; [reflexivity|].
  cbn [agents_loop run_agents].
  destruct (H a pk (or_introl eq_refl)) as [I R].
  assert (H' : forall stats' : dict string AgentStats,
               Dict.keys stats' = Dict.keys stats ->
               forall a0 pk0, In (a0, pk0) items ->
                 In a0 (Dict.keys stats') /\ Forall (resolves whs) pk0).
  { intros stats' K a0 pk0 I0. rewrite K. apply H. now right. }
  destruct pk as [|p pk]; [apply IH, (H' stats eq_refl)|].
  destruct (In_get_Some stats a I) as [st E].
  unfold getitem. cbn [agent_stats]. rewrite E. cbn [bind].
  rewrite group_loop_spec. cbn [bind].
  unfold Dict.items.
  rewrite (warehouse_loop_spec random whs ags pks delays a (groups_of (p :: pk))
             (groups_of_resolve whs _ R) stats k _ st E).
  cbn [bind]. unfold update_stats, getitem. cbn [agent_stats].
  rewrite get_setitem_eq. cbn [bind]. unfold set_agent_stats. cbn.
  rewrite setitem_setitem. rewrite IH.
  - reflexivity.
  - apply H'. now apply keys_setitem_present.
Qed.

Lemma run_agents_keys delays whs items :
  forall stats k,
    Dict.keys (fst (run_agents delays whs stats k items)) = Dict.keys stats.
Proof.
  induction items as [|[a pk] items IH]; intros stats k; [reflexivity|].
  cbn [run_agents]. destruct pk as [|p pk]; [apply IH|].
  destruct (Dict.get stats a) as [st|] eqn:E; [|apply IH].
  rewrite IH. apply keys_setitem_present. now apply get_Some_In in E.
Qed.

(** An agent that does not occur in [items] keeps its statistics. *)
Lemma run_agents_other delays whs items a :
  forall stats k,
    ~ In a (map fst items) ->
    Dict.get (fst (run_agents delays whs stats k items)) a = Dict.get stats a.
Proof.
  induction items as [|[b pk] items IH]; intros stats k N; [reflexivity|].
  cbn [run_agents]. simpl in N.
  destruct pk as [|p pk]; [apply IH; tauto|].
  destruct (Dict.get stats b) as [st|] eqn:E; [|apply IH; tauto].
  rewrite IH by tauto. apply get_setitem_neq. tauto.
Qed.

(** An agent without packages keeps its statistics; an agent with packages
    ends with the statistics of its walked route, computed from the
    statistics it started with. *)
Lemma run_agents_agent delays whs items a pk :
  forall stats k,
    NoDup (map fst items) ->
    In (a, pk) items ->
    match pk with
    | [] => Dict.get (fst (run_agents delays whs stats k items)) a = Dict.get stats a
    | _ :: _ =>
        forall st, Dict.get stats a = Some st ->
          exists k', Dict.get (fst (run_agents delays whs stats k items)) a =
                     Some (agent_after delays whs k' st pk)
    end.
Proof.
  induction items as [|[b pk0] items IH]; intros stats k ND I; [destruct I|].
  inversion ND as [|? ? Nb ND']; subst. cbn [run_agents].
  destruct I as [[= -> ->]|I].
  - destruct pk as [|p pk].
    + now apply run_agents_other.
    + intros st E. rewrite E. exists k.
      rewrite run_agents_other by assumption. apply get_setitem_eq.
  - assert (N : b <> a).
    { intros ->. apply Nb. change a with (fst (a, pk)). now apply in_map. }
    specialize (IH) as IH'.
    destruct pk0 as [|p0 pk0]; [now apply IH|].
    destruct (Dict.get stats b) as [st0|] eqn:E0; [|now apply IH].
    specialize (IH (Dict.setitem stats b (agent_after delays whs k st0 (p0 :: pk0)))
                   (advance delays k
                      (List.length (agent_route delays whs k st0 (p0 :: pk0)))) ND' I).
    destruct pk as [|p pk].
    + rewrite IH. now apply get_setitem_neq.
    + intros st E. apply IH. now rewrite get_setitem_neq.
Qed.

End Fleet.
End Fleet.

(** ** States reached from [__init__] *)

Module Init.

Import DictFacts Assignment.

(** Storing the items of a dictionary one by one into another, under keys
    the latter does not have yet, appends them in order. *)
Lemma fold_setitem_map {A B : Type} (f : A -> B) (d : list (string * A)) :
  forall acc : dict string B,
    NoDup (map fst d) ->
    (forall k, In k (map fst d) -> ~ In k (Dict.keys acc)) ->
    fold_left (fun r a => Dict.setitem r (fst a) (f (snd a))) d acc =
    acc ++ map (fun a => (fst a, f (snd a))) d.
Proof.
  induction d as [|[k v] d IH]; intros acc ND Fr; simpl.
  - now rewrite app_nil_r.
  - inversion ND as [|? ? Nk ND']; subst.
    rewrite setitem_absent by (apply Fr; now left).
    rewrite IH; [now rewrite <- app_assoc|assumption|].
    intros k' I. unfold Dict.keys. rewrite map_app, in_app_iff. simpl.
    intros [C|[<-|[]]]; [|contradiction].
    apply (Fr k'); [now right|exact C].
Qed.

Lemma fold_setitem_NoDup {A : Type} (l : list (string * A)) :
  forall acc : dict string A,
    NoDup (Dict.keys acc) ->
    NoDup (Dict.keys (fold_left (fun r a => Dict.setitem r (fst a) (snd a)) l acc)).
Proof.
  induction l as [|a l IH]; intros acc ND; simpl; [assumption|].
  apply IH. now apply NoDup_keys_setitem.
Qed.

Lemma _parse_agents_NoDup (agents_data : locations_data) :
  NoDup (Dict.keys (_parse_agents agents_data)).
Proof.
  destruct agents_data; simpl; try apply fold_setitem_NoDup; constructor.
Qed.

(** The statistics every agent starts a first run with. *)
Definition all_fresh (self : FastBoxDeliverySystem) : Prop :=
  self.(agent_stats) = map (fun a => (fst a, fresh_stats (snd a))) self.(agents) /\
  NoDup (Dict.keys self.(agents)).

Lemma _initialize_agent_stats_spec (agents : dict string point) :
  NoDup (Dict.keys agents) ->
  _initialize_agent_stats agents = map (fun a => (fst a, fresh_stats (snd a))) agents.
Proof.
  intros ND. unfold _initialize_agent_stats, Dict.items.
  now rewrite (fold_setitem_map fresh_stats agents []) by (auto; intros k _ []).
Qed.

Lemma init_all_fresh data self : init data = Ok self -> all_fresh self.
Proof.
  unfold init. destruct (_parse_packages _) as [pks|]; [|discriminate].
  intros [= <-]. split; simpl.
  - apply _initialize_agent_stats_spec, _parse_agents_NoDup.
  - apply _parse_agents_NoDup.
Qed.




(** The fleet as [simulate_delivery] sees it when it assigns packages. *)
Definition fleet_at_assignment (random : nat -> float)
    (self : FastBoxDeliverySystem) (enable_delays new_agent_mid_day : bool)
  : FastBoxDeliverySystem :=
  let self := set_enable_random_delays self enable_delays in
  if new_agent_mid_day then _add_new_agent_mid_day random self else self.

Lemma simulate_delivery_unfold random self enable_delays new_agent_mid_day :
  simulate_delivery random self enable_delays new_agent_mid_day =
  bind (assign_packages_to_agents
          (fleet_at_assignment random self enable_delays new_agent_mid_day))
       (fun assignments =>
          agents_loop random
            (fleet_at_assignment random self enable_delays new_agent_mid_day)
            (Dict.items assignments)).
Proof. reflexivity. Qed.


Lemma fleet_at_assignment_static random self enable_delays new_agent_mid_day :
  let s := fleet_at_assignment random self enable_delays new_agent_mid_day in
  s.(warehouses) = self.(warehouses) /\ s.(packages) = self.(packages) /\
  s.(enable_random_delays) = enable_delays.
Proof.
  unfold fleet_at_assignment, _add_new_agent_mid_day.
  destruct new_agent_mid_day; [|now repeat split].
  cbn [packages set_enable_random_delays].
  destruct (0 <? List.length (packages self))%nat; now repeat split.
Qed.

End Init.

Module Run.

Import DictFacts Assignment Grouping Route Fleet Init.

Lemma assign_loop_ok_resolves self pkgs :
  forall asg asg', assign_loop self pkgs asg = Ok asg' ->
                   Forall (resolves self.(warehouses)) pkgs.
Proof.
  induction pkgs as [|p pkgs IH]; intros asg asg'; [constructor|].
  cbn [assign_loop].
  destruct (getitem_ref (warehouses self) (warehouse p)) as [w|] eqn:Hw;
    [|discriminate].
  cbn [bind]. intros E. constructor; [now exists w|].
  destruct (find_nearest_agent self w) as [[a|]|]; cbn [bind] in E;
    try discriminate; [destruct (truthy a)|]; try (eapply IH; eassumption).
  destruct (append_at asg a p); cbn [bind] in E; [|discriminate].
  eapply IH; eassumption.
Qed.

(** The state a run ends in, from the fleet [s] at assignment time and the
    assignment map. *)
Definition final_state (random : nat -> float) (s : FastBoxDeliverySystem)
    (asg : dict string (list Package)) : FastBoxDeliverySystem :=
  mkSystem s.(warehouses) s.(agents) s.(packages)
    (fst (run_agents random s.(enable_random_delays) s.(warehouses)
                     s.(agent_stats) s.(rng) asg))
    s.(enable_random_delays)
    (snd (run_agents random s.(enable_random_delays) s.(warehouses)
                     s.(agent_stats) s.(rng) asg)).

(** Once assignment has succeeded, the simulation runs to completion, and
    its final state is the one computed agent by agent. *)
Lemma simulate_delivery_spec random self enable_delays new_agent_mid_day asg :
  let s := fleet_at_assignment random self enable_delays new_agent_mid_day in
  stats_ok s ->
  assign_packages_to_agents s = Ok asg ->
  simulate_delivery random self enable_delays new_agent_mid_day =
    Ok (final_state random s asg) /\
  Dict.keys asg = Dict.keys s.(agents) /\
  total_len asg = List.length (filter (is_assigned s) s.(packages)) /\
  forall a, In a (Dict.keys s.(agents)) ->
            Dict.get asg a = Some (filter (assigned_to s a) s.(packages)).
Proof.
  intros s OK E.
  pose proof (assign_loop_ok_resolves _ _ _ _ E) as R.
  destruct (assign_packages_to_agents_spec s OK R) as (asg0 & E0 & K & T & G).
  rewrite E in E0. injection E0 as <-.
  split; [|now repeat split].
  rewrite simulate_delivery_unfold. fold s. rewrite E. cbn [bind].
  unfold final_state, Dict.items. destruct s as [whs ags pks stats delays k] eqn:Es.
  cbn [warehouses agents packages agent_stats enable_random_delays rng] in *.
  apply agents_loop_spec. intros a pk I.
  destruct OK as [Ks ND]. cbn [agent_stats agents] in Ks, ND.
  assert (Ia : In a (Dict.keys ags)).
  { rewrite <- K. change a with (fst (a, pk)). now apply in_map. }
  split; [now rewrite Ks|].
  assert (Ga : Dict.get asg a = Some pk).
  { apply In_items_get; [now rewrite K|assumption]. }
  rewrite (G a Ia) in Ga. injection Ga as <-.
  apply Forall_forall. intros p Ip. apply filter_In in Ip as [Ip _].
  rewrite Forall_forall in R. now apply R.
Qed.

End Run.

(** ** Route accounting without delays *)

Module Accounting.

Import DictFacts Assignment Grouping Route Fleet Init Run.
Local Open Scope float_scope.



(** The scenario of section 8.2 of the specification. *)
Definition scenario_8_2 : json_data :=
  mkJsonData
    (LocDict [("W1"%string, (0, 0))])
    (LocDict [("A1"%string, (0, 0)); ("A2"%string, (10, 10))])
    [mkPackageRecord (Some "P1"%string) None (Some (Some "W1"%string)) (Some (5, 5))].



Lemma apply_step_history st s :
  route_history (apply_step st s) = route_history st ++ [s].
Proof. destruct s as [f t d []]; reflexivity. Qed.

Lemma apply_steps_history st steps :
  route_history (apply_steps st steps) = route_history st ++ steps.
Proof.
  unfold apply_steps. revert st.
  induction steps as [|s steps IH]; intros st; simpl; [now rewrite app_nil_r|].
  now rewrite IH, apply_step_history, <- app_assoc.
Qed.

Lemma apply_steps_total st steps :
  total_distance (apply_steps st steps) =
  fold_left PrimFloat.add (map step_distance steps) (total_distance st).
Proof.
  unfold apply_steps. revert st.
  induction steps as [|s steps IH]; intros st; simpl; [reflexivity|].
  rewrite IH. now destruct s as [f t d []].
Qed.

Definition is_delivery (s : RouteStep) : bool :=
  match s.(step_type) with delivery => true | to_warehouse => false end.

Lemma apply_steps_delivered st steps :
  packages_delivered (apply_steps st steps) =
  (packages_delivered st + List.length (filter is_delivery steps))%nat.
Proof.
  unfold apply_steps. revert st.
  induction steps as [|s steps IH]; intros st; simpl; [lia|].
  rewrite IH. destruct s as [f t d []]; unfold is_delivery; simpl; lia.
Qed.



Lemma last_app_default {A : Type} (l1 l2 : list A) (d : A) :
  last (l1 ++ l2) d = last l2 (last l1 d).
Proof.
  revert d. induction l1 as [|x l1 IH]; intros d; [reflexivity|].
  change ((x :: l1) ++ l2) with (x :: (l1 ++ l2)).
  now rewrite !last_cons_default, IH.
Qed.





End Accounting.

(** ** Delays: one draw per leg *)

Module Delays.

Import DictFacts Assignment Grouping Route Fleet Init Run Accounting.
Local Open Scope float_scope.

Section Delays.

Variable random : nat -> float.




Lemma delivery_steps_length delays k from pkgs :
  List.length (delivery_steps random delays k from pkgs) = List.length pkgs.
Proof. revert k from. induction pkgs; intros; simpl; auto. Qed.









End Delays.





End Delays.

(** ** Reporting *)

Module Best.

Import FloatFacts DictFacts Nearest Init.
Local Open Scope float_scope.

(** Scanning identifiers for the first strict minimum of a score. *)
Fixpoint scan (d : string -> float) (ids : list string)
    (best : option string) (m : float) : option string :=
  match ids with
  | [] => best
  | x :: rest =>
      if d x <? m then scan d rest (Some x) (d x) else scan d rest best m
  end.

Lemma scan_scanned d ids :
  forall seen best m,
    scanned d seen best m ->
    exists m', scanned d (seen ++ ids) (scan d ids best m) m'.
Proof.
  induction ids as [|x ids IH]; intros seen best m S; cbn [scan].
  - exists m. now rewrite app_nil_r.
  - pose proof (scanned_step d seen best m x S) as S'.
    replace (seen ++ x :: ids) with ((seen ++ [x]) ++ ids)
      by (now rewrite <- app_assoc).
    destruct (d x <? m); now apply IH.
Qed.

Lemma inf_ltb (m : float) : (PyFloat.inf <? m) = false.
Proof.
  rewrite ltb_spec. unfold SFltb.
  change (Prim2SF PyFloat.inf) with (S754_infinity false).
  destruct (Prim2SF m) as [s|s| |s mm e]; simpl; try reflexivity; now destruct s.
Qed.

(** The score the second loop of [calculate_efficiency] compares: the
    rounded efficiency of an agent that delivered something; an agent
    that delivered nothing never passes the comparison. *)
Definition score (e : AgentReport) : float :=
  if (0 <? e.(rep_packages_delivered))%nat then e.(rep_efficiency) else PyFloat.inf.

Definition score_of (entries : dict string AgentReport) (a : string) : float :=
  match Dict.get entries a with
  | Some e => score e
  | None => PyFloat.inf
  end.

Lemma best_agent_loop_scan (d : string -> float) items :
  forall best m,
    (forall a e, In (a, e) items -> d a = score e) ->
    best_agent_loop items best m = scan d (map fst items) best m.
Proof.
  induction items as [|[a e] items IH]; intros best m H; [reflexivity|].
  cbn [best_agent_loop map fst scan].
  rewrite (H a e (or_introl eq_refl)). unfold score at 1 2.
  destruct (0 <? rep_packages_delivered e)%nat; cbn [andb].
  - destruct (rep_efficiency e <? m); apply IH; intros; apply H; now right.
  - rewrite inf_ltb. apply IH; intros; apply H; now right.
Qed.

Section Reporting.

Variable round2 : float -> float.

Lemma report_entries_spec (stats : dict string AgentStats) :
  NoDup (Dict.keys stats) ->
  report_entries round2 stats =
  map (fun a => (fst a, agent_report round2 (snd a))) stats.
Proof.
  intros ND. unfold report_entries, Dict.items.
  now rewrite (fold_setitem_map (agent_report round2) stats [])
    by (auto; intros k _ []).
Qed.

Lemma report_entries_NoDup (stats : dict string AgentStats) :
  NoDup (Dict.keys (report_entries round2 stats)).
Proof.
  unfold report_entries.
  generalize (Dict.items stats). intros l.
  assert (G : forall acc : dict string AgentReport, NoDup (Dict.keys acc) ->
            NoDup (Dict.keys (fold_left
              (fun report a => Dict.setitem report (fst a) (agent_report round2 (snd a)))
              l acc))).
  { induction l as [|a l IH]; intros acc ND; simpl; [assumption|].
    apply IH. now apply NoDup_keys_setitem. }
  apply G. constructor.
Qed.

(** The agent the second loop settles on. *)
Definition best_of (self : FastBoxDeliverySystem) : option string :=
  best_agent_loop (Dict.items (report_entries round2 self.(agent_stats)))
                  None PyFloat.inf.

Lemma best_of_scanned (self : FastBoxDeliverySystem) :
  let entries := report_entries round2 self.(agent_stats) in
  exists m, scanned (score_of entries) (Dict.keys entries) (best_of self) m.
Proof.
  intros entries. unfold best_of, Dict.items. fold entries.
  rewrite (best_agent_loop_scan (score_of entries)).
  - apply (scan_scanned (score_of entries) (map fst entries) [] None PyFloat.inf).
    simpl. split; [reflexivity|]. intros b [].
  - intros a e I. unfold score_of.
    now rewrite (In_items_get entries a e (report_entries_NoDup _) I).
Qed.

End Reporting.
End Best.

Module Report.

Import FloatFacts DictFacts Nearest Init Best.
Local Open Scope float_scope.

Section Report.

Variable round2 : float -> float.

(** The per-agent records of the report, before the designator is stored. *)
Definition entries_of (stats : dict string AgentStats) : Report :=
  map (fun a => (fst a, Entry (agent_report round2 (snd a)))) stats.



Lemma calculate_efficiency_shape (self : FastBoxDeliverySystem) :
  NoDup (Dict.keys self.(agent_stats)) ->
  calculate_efficiency round2 self =
  match best_of round2 self with
  | Some a => if truthy a
              then Dict.setitem (entries_of self.(agent_stats))
                                "best_agent"%string (Designator a)
              else entries_of self.(agent_stats)
  | None => entries_of self.(agent_stats)
  end.
Proof.
  intros ND. unfold calculate_efficiency, best_of, entries_of.
  rewrite (report_entries_spec round2 _ ND). now rewrite map_map.
Qed.

Lemma get_entries_of stats a :
  Dict.get (entries_of stats) a =
  match Dict.get stats a with
  | Some st => Some (Entry (agent_report round2 st))
  | None => None
  end.
Proof.
  unfold entries_of. induction stats as [|[k v] d IH]; simpl; [reflexivity|].
  now destruct (String.eqb k a).
Qed.


(** A report is the per-agent records, with or without a designator stored
    under ['best_agent']. *)
Definition report_over (stats : dict string AgentStats) (report : Report) : Prop :=
  report = entries_of stats \/
  exists b, report = Dict.setitem (entries_of stats) "best_agent"%string (Designator b).

Lemma calculate_efficiency_over (self : FastBoxDeliverySystem) :
  NoDup (Dict.keys self.(agent_stats)) ->
  report_over self.(agent_stats) (calculate_efficiency round2 self).
Proof.
  intros ND. rewrite (calculate_efficiency_shape self ND).
  destruct (best_of round2 self) as [a|]; [destruct (truthy a)|];
    unfold report_over; eauto.
Qed.

Lemma report_over_get stats report k :
  report_over stats report -> k <> "best_agent"%string ->
  Dict.get report k =
  match Dict.get stats k with
  | Some st => Some (Entry (agent_report round2 st))
  | None => None
  end.
Proof.
  intros [->|[b ->]] N.
  - apply get_entries_of.
  - rewrite get_setitem_neq by congruence. apply get_entries_of.
Qed.






(** The rounded efficiency of an agent, as stored in its record. *)
Definition rounded_efficiency (st : AgentStats) : float :=
  round2 (if (0 <? st.(packages_delivered))%nat
          then st.(total_distance) / PyFloat.of_nat st.(packages_delivered)
          else 0).

Lemma score_of_stats stats a :
  NoDup (Dict.keys stats) ->
  score_of (report_entries round2 stats) a =
  match Dict.get stats a with
  | Some st => if (0 <? st.(packages_delivered))%nat
               then rounded_efficiency st else PyFloat.inf
  | None => PyFloat.inf
  end.
Proof.
  intros ND. rewrite (report_entries_spec round2 stats ND). unfold score_of.
  clear ND. induction stats as [|[k v] d IH]; simpl; [reflexivity|].
  destruct (String.eqb k a); [|exact IH].
  unfold score, rounded_efficiency. cbn.
  now destruct (0 <? packages_delivered v)%nat.
Qed.

Lemma keys_report_entries stats :
  NoDup (Dict.keys stats) ->
  Dict.keys (report_entries round2 stats) = Dict.keys stats.
Proof.
  intros ND. rewrite (report_entries_spec round2 stats ND).
  unfold Dict.keys. now rewrite map_map.
Qed.

Lemma designator_is_best (self : FastBoxDeliverySystem) b :
  NoDup (Dict.keys self.(agent_stats)) ->
  Dict.get (calculate_efficiency round2 self) "best_agent"%string
    = Some (Designator b) ->
  best_of round2 self = Some b.
Proof.
  intros ND. rewrite (calculate_efficiency_shape self ND).
  assert (E : Dict.get (entries_of self.(agent_stats)) "best_agent"%string
              <> Some (Designator b)).
  { rewrite get_entries_of. now destruct (Dict.get _ _). }
  destruct (best_of round2 self) as [a|]; [destruct (truthy a)|]; try congruence.
  rewrite get_setitem_eq. congruence.
Qed.

(** What the scan of [calculate_efficiency] guarantees about the agent it
    settles on. *)
Lemma best_of_minimal (self : FastBoxDeliverySystem) b :
  NoDup (Dict.keys self.(agent_stats)) ->
  best_of round2 self = Some b ->
  exists stb before after,
    Dict.get self.(agent_stats) b = Some stb /\
    (0 < stb.(packages_delivered))%nat /\
    (rounded_efficiency stb <? PyFloat.inf) = true /\
    Dict.keys self.(agent_stats) = before ++ b :: after /\
    (forall a sta, Dict.get self.(agent_stats) a = Some sta ->
       (0 < sta.(packages_delivered))%nat ->
       (rounded_efficiency sta <? rounded_efficiency stb) = false) /\
    (forall a sta, In a before -> Dict.get self.(agent_stats) a = Some sta ->
       (0 < sta.(packages_delivered))%nat ->
       (rounded_efficiency sta <=? rounded_efficiency stb) = false).
Proof.
  intros ND Hb. destruct (best_of_scanned round2 self) as [m S].
  cbv zeta in S. rewrite Hb, (keys_report_entries _ ND) in S.
  destruct S as (_ & Hinf & Hmin & before & after & K & Hbefore).
  rewrite (score_of_stats _ b ND) in Hinf, Hmin, Hbefore.
  destruct (Dict.get (agent_stats self) b) as [stb|] eqn:Eb;
    [|now rewrite inf_ltb in Hinf].
  destruct (0 <? packages_delivered stb)%nat eqn:Pb;
    [|now rewrite inf_ltb in Hinf].
  exists stb, before, after. apply Nat.ltb_lt in Pb.
  repeat split; try assumption.
  - intros a sta Ea Pa. specialize (Hmin a (get_Some_In _ _ _ Ea)).
    rewrite (score_of_stats _ a ND), Ea in Hmin.
    apply Nat.ltb_lt in Pa. now rewrite Pa in Hmin.
  - intros a sta Ia Ea Pa. specialize (Hbefore a Ia).
    rewrite (score_of_stats _ a ND), Ea in Hbefore.
    apply Nat.ltb_lt in Pa. now rewrite Pa in Hbefore.
Qed.

Lemma best_of_exists (self : FastBoxDeliverySystem) a st :
  NoDup (Dict.keys self.(agent_stats)) ->
  Dict.get self.(agent_stats) a = Some st ->
  (0 < st.(packages_delivered))%nat ->
  (rounded_efficiency st <? PyFloat.inf) = true ->
  exists b, best_of round2 self = Some b.
Proof.
  intros ND Ea Pa Hinf. destruct (best_of_scanned round2 self) as [m S].
  cbv zeta in S. rewrite (keys_report_entries _ ND) in S.
  destruct (best_of round2 self) as [b|]; [now exists b|].
  destruct S as [_ Hn]. specialize (Hn a (get_Some_In _ _ _ Ea)).
  rewrite (score_of_stats _ a ND), Ea in Hn.
  apply Nat.ltb_lt in Pa. rewrite Pa in Hn. congruence.
Qed.

End Report.


End Report.

(** ** Efficiency and best agent *)

Module Efficiency.

Import FloatFacts DictFacts Init Best Report Accounting.
Local Open Scope float_scope.

(** A catalog whose only agent is named like the designator key. *)
Definition agent_named_best_agent : json_data :=
  mkJsonData
    (LocDict [("W1"%string, (0, 0))])
    (LocDict [("best_agent"%string, (0, 0))])
    [mkPackageRecord (Some "P1"%string) None (Some (Some "W1"%string)) (Some (3, 4))].

(** C5, amended.  [calculate_efficiency] maps every agent not named
    ['best_agent'] to its delivered count, its total distance rounded, and
    its efficiency rounded, the efficiency being total distance over
    delivered count when something was delivered and 0.0 otherwise.  A
    designated best agent delivered something, has a rounded efficiency
    below infinity that no agent with deliveries undercuts, and no earlier
    agent with deliveries equals it (first seen wins ties).  An agent with
    no delivery is never designated, and nobody is when nobody delivered.
    When some agent delivered at a rounded efficiency below infinity and
    identifiers are non-empty, a best agent is designated. *)
Theorem calculate_efficiency_report (round2 : float -> float)
    (self : FastBoxDeliverySystem) :
  NoDup (Dict.keys self.(agent_stats)) ->
  let stats := self.(agent_stats) in
  let report := calculate_efficiency round2 self in
  (forall a st, Dict.get stats a = Some st -> a <> "best_agent"%string ->
     Dict.get report a =
     Some (Entry (mkAgentReport
                    st.(packages_delivered)
                    (round2 st.(total_distance))
                    (round2 (if (0 <? st.(packages_delivered))%nat
                             then st.(total_distance)
                                  / PyFloat.of_nat st.(packages_delivered)
                             else 0))))) /\
  (forall b, Dict.get report "best_agent"%string = Some (Designator b) ->
     exists stb before after,
       Dict.get stats b = Some stb /\
       (0 < stb.(packages_delivered))%nat /\
       (rounded_efficiency round2 stb <? PyFloat.inf) = true /\
       Dict.keys stats = before ++ b :: after /\
       (forall a sta, Dict.get stats a = Some sta ->
          (0 < sta.(packages_delivered))%nat ->
          (rounded_efficiency round2 sta <? rounded_efficiency round2 stb) = false) /\
       (forall a sta, In a before -> Dict.get stats a = Some sta ->
          (0 < sta.(packages_delivered))%nat ->
          (rounded_efficiency round2 sta <=? rounded_efficiency round2 stb) = false)) /\
  ((forall a st, Dict.get stats a = Some st -> st.(packages_delivered) = 0%nat) ->
     forall b, Dict.get report "best_agent"%string <> Some (Designator b)) /\
  ((forall a, In a (Dict.keys stats) -> truthy a = true) ->
     forall a st, Dict.get stats a = Some st ->
       (0 < st.(packages_delivered))%nat ->
       (rounded_efficiency round2 st <? PyFloat.inf) = true ->
       exists b, Dict.get report "best_agent"%string = Some (Designator b)).
Proof.
  intros ND stats report. repeat split.
  - intros a st E N.
    rewrite (report_over_get round2 stats report a
               (calculate_efficiency_over round2 self ND) N).
    fold stats. now rewrite E.
  - intros b Hb. apply (best_of_minimal round2 self b ND).
    now apply designator_is_best.
  - intros Z b Hb. apply (designator_is_best round2 self b ND) in Hb.
    destruct (best_of_minimal round2 self b ND Hb) as (stb & _ & _ & Eb & Pb & _).
    rewrite (Z b stb Eb) in Pb. lia.
  - intros T a st Ea Pa Hinf.
    destruct (best_of_exists round2 self a st ND Ea Pa Hinf) as [b Hb].
    destruct (best_of_minimal round2 self b ND Hb) as (stb & _ & _ & Eb & _).
    exists b. unfold report.
    rewrite (calculate_efficiency_shape round2 self ND), Hb.
    rewrite (T b (get_Some_In _ _ _ Eb)). apply get_setitem_eq.
Qed.

(** C5 as stated fails for an agent named ['best_agent'] that is
    designated: the designator replaces its record, so the report maps that
    agent to no efficiency at all. *)
Lemma agent_named_best_agent_has_no_record :
  exists self self',
    init agent_named_best_agent = Ok self /\
    simulate_delivery (fun _ => 0.5) self false false = Ok self' /\
    (exists st, Dict.get self'.(agent_stats) "best_agent"%string = Some st /\
                st.(packages_delivered) = 1%nat) /\
    calculate_efficiency py_round2 self' =
      [("best_agent"%string, Designator "best_agent")] /\
    forall e, Dict.get (calculate_efficiency py_round2 self') "best_agent"%string
              <> Some (Entry e).
Proof.
  eexists _, _. split; [reflexivity|].
  split; [vm_compute; reflexivity|].
  split; [eexists; split; vm_compute; reflexivity|].
  split; [vm_compute; reflexivity|].
  intros e. vm_compute. discriminate.
Qed.

(** An agent that delivered over an infinite distance has an infinite
    efficiency, which never passes the comparison with the initial best
    efficiency: nobody is designated although somebody delivered. *)
Example infinite_efficiency_is_never_best :
  let data :=
    mkJsonData (LocDict [("W1"%string, (- 0x1p+1023, 0))])
               (LocDict [("A1"%string, (- 0x1p+1023, 0))])
               [mkPackageRecord (Some "P1"%string) None (Some (Some "W1"%string))
                                (Some (0x1p+1023, 0))] in
  bind (init data) (fun s =>
    bind (simulate_delivery (fun _ => 0.5) s false false) (fun s' =>
      Ok (calculate_efficiency py_round2 s')))
  = Ok [("A1"%string, Entry (mkAgentReport 1 infinity infinity))].
Proof. vm_compute. reflexivity. Qed.

End Efficiency.

(** ** Completeness of the delivered count *)

Module Completeness.

Import FloatFacts DictFacts Nearest Assignment Grouping Route Fleet Init Run
       Accounting Best Report Efficiency.
Local Open Scope float_scope.

Lemma delivery_steps_count random delays k from pkgs :
  List.length (filter is_delivery (delivery_steps random delays k from pkgs)) =
  List.length pkgs.
Proof. revert k from. induction pkgs; intros; simpl; auto. Qed.

Lemma route_steps_count random delays whs groups :
  Forall (fun g => exists wl, getitem_ref whs (fst g) = Ok wl) groups ->
  forall k from,
    List.length (filter is_delivery (route_steps random delays whs k from groups)) =
    group_total groups.
Proof.
  intros R. induction R as [|[w ps] groups [wl Hw] R IH]; intros k from;
    [reflexivity|].
  simpl in Hw. cbn [route_steps]. rewrite Hw.
  cbn [filter is_delivery step_type]. rewrite filter_app, length_app.
  rewrite delivery_steps_count, IH. reflexivity.
Qed.

(** Walking a route delivers every package of the agent, delays or not. *)
Lemma agent_after_delivered random delays whs k st pk :
  Forall (resolves whs) pk ->
  packages_delivered (agent_after random delays whs k st pk) =
  (packages_delivered st + List.length pk)%nat.
Proof.
  intros R. unfold agent_after, agent_route.
  cbn [with_location packages_delivered].
  rewrite apply_steps_delivered, route_steps_count by now apply groups_of_resolve.
  now rewrite group_total_groups_of.
Qed.











(** A catalog whose only agent has the empty identifier. *)
Definition agent_named_empty : json_data :=
  mkJsonData
    (LocDict [("W1"%string, (0, 0))])
    (LocDict [(""%string, (0, 0))])
    [mkPackageRecord (Some "P1"%string) None (Some (Some "W1"%string)) (Some (3, 4))].



End Completeness.

(** ** Empty fleet *)

Module EmptyFleet.

Import DictFacts Assignment Init Report.

Lemma assign_loop_no_agents (s : FastBoxDeliverySystem) pkgs asg :
  s.(agents) = [] ->
  Forall (resolves s.(warehouses)) pkgs ->
  assign_loop s pkgs asg = Ok asg.
Proof.
  intros A R. induction R as [|p pkgs [w Hw] R IH]; [reflexivity|].
  cbn [assign_loop]. rewrite Hw. cbn [bind].
  unfold find_nearest_agent. rewrite A. cbn. exact IH.
Qed.

Lemma assignee_no_agents (s : FastBoxDeliverySystem) p :
  s.(agents) = [] -> assignee s p = None.
Proof.
  intros A. unfold assignee. destruct (getitem_ref _ _); [|reflexivity].
  unfold find_nearest_agent. now rewrite A.
Qed.

(** A catalog without agents whose package names an unknown warehouse. *)
Definition no_agents_unknown_warehouse : json_data :=
  mkJsonData
    (LocDict [("W1"%string, (0%float, 0%float))])
    (LocDict [])
    [mkPackageRecord (Some "P1"%string) None (Some (Some "W9"%string))
                     (Some (3%float, 4%float))].

(** C7, amended.  For a freshly loaded catalog with no agent in which every
    package's warehouse resolves: assignment completes with an empty map, no
    package has an assignee (all are dropped, silently), the run changes
    nothing but the delay flag, there are no agent statistics before or
    after, the report is empty, holds no best agent, and [generate_report]
    returns it, warning exactly when there is at least one package. *)
Theorem empty_fleet_drops_every_package (random : nat -> float)
    (round2 : float -> float) (data : json_data) (enable_delays : bool)
    (self : FastBoxDeliverySystem) :
  init data = Ok self ->
  self.(agents) = [] ->
  Forall (resolves self.(warehouses)) self.(packages) ->
  let self' := set_enable_random_delays self enable_delays in
  assign_packages_to_agents self = Ok [] /\
  filter (is_assigned self) self.(packages) = [] /\
  self.(agent_stats) = [] /\
  simulate_delivery random self enable_delays false = Ok self' /\
  self'.(agent_stats) = [] /\
  calculate_efficiency round2 self' = [] /\
  Dict.get (calculate_efficiency round2 self') "best_agent"%string = None /\
  generate_report round2 self' =
    Ok ([], negb (Nat.eqb 0 (List.length self.(packages)))).
Proof.
  intros Hinit A R self'.
  assert (St : self.(agent_stats) = []).
  { destruct (init_all_fresh data self Hinit) as [E _]. now rewrite E, A. }
  assert (As : assign_packages_to_agents self = Ok []).
  { unfold assign_packages_to_agents. rewrite A. cbn.
    now apply assign_loop_no_agents. }
  repeat split; try assumption.
  - clear R As. generalize (packages self). intros l.
    induction l as [|p l IH]; [reflexivity|].
    cbn [filter]. unfold is_assigned at 1.
    rewrite assignee_no_agents by assumption. exact IH.
  - unfold simulate_delivery. fold self'.
    assert (As' : assign_packages_to_agents self' = Ok []).
    { unfold assign_packages_to_agents. cbn [self' set_enable_random_delays agents packages].
      rewrite A. cbn. apply assign_loop_no_agents; assumption. }
    now rewrite As'.
  - unfold calculate_efficiency. cbn [self' set_enable_random_delays agent_stats].
    now rewrite St.
  - unfold calculate_efficiency. cbn [self' set_enable_random_delays agent_stats].
    now rewrite St.
  - unfold generate_report, calculate_efficiency.
    cbn [self' set_enable_random_delays agent_stats packages]. now rewrite St.
Qed.

(** C7 as stated fails when a package of the agentless catalog names an
    unknown warehouse: assignment looks the warehouse up before it looks
    for agents, and raises [KeyError] instead of dropping the package. *)
Lemma empty_fleet_unknown_warehouse_raises :
  exists self,
    init no_agents_unknown_warehouse = Ok self /\
    self.(agents) = [] /\
    assign_packages_to_agents self = Raise (KeyError (Some "W9"%string)) /\
    simulate_delivery (fun _ => 0.5%float) self false false =
      Raise (KeyError (Some "W9"%string)).
Proof.
  eexists. split; [reflexivity|]. repeat split; vm_compute; reflexivity.
Qed.

End EmptyFleet.

(** ** Loading *)

Module Loading.

Import DictFacts Nearest Assignment Init.


(** A package record whose ['warehouse_id'] is the empty string. *)
Definition record_with_empty_warehouse_id : package_record :=
  mkPackageRecord (Some "P1"%string) (Some (Some ""%string))
                  (Some (Some "W1"%string)) (Some (5%float, 5%float)).

(** The record lacks ['id'] or lacks ['destination']. *)
Definition lacks_required_field (r : package_record) : Prop :=
  r.(rec_id) = None \/ r.(rec_destination) = None.

Definition missing_field_error (e : exn) : Prop :=
  e = KeyError (Some "id"%string) \/ e = KeyError (Some "destination"%string).

Lemma parse_package_result (r : package_record) :
  match parse_package r with
  | Ok p => exists pid dest, r.(rec_id) = Some pid /\ r.(rec_destination) = Some dest /\
                             p = mkPackage pid
                                   (py_or (record_get r.(rec_warehouse_id))
                                          (record_get r.(rec_warehouse))) dest
  | Raise e => lacks_required_field r /\ missing_field_error e
  end.
Proof.
  unfold parse_package, lacks_required_field, missing_field_error.
  destruct r as [[pid|] wid wh [dest|]]; cbn; eauto 7.
Qed.







(** C9, amended.  The reference of a parsed package is the value under
    ['warehouse_id'] when that value is a non-empty string; when
    ['warehouse_id'] is absent, null or the empty string, it is whatever
    ['warehouse'] holds ([None] when absent or null). *)
Theorem warehouse_reference_first_truthy (pid : string) (dest : point)
    (wid wh : option (option string)) :
  parse_package (mkPackageRecord (Some pid) wid wh (Some dest)) =
  Ok (mkPackage pid
        match wid with
        | Some (Some s) =>
            if String.eqb s "" then record_get wh else Some s
        | _ => record_get wh
        end
        dest).
Proof.
  unfold parse_package. cbn. unfold py_or, truthy_opt, truthy.
  destruct wid as [[s|]|]; cbn; try reflexivity.
  now destruct (String.eqb s "").
Qed.

(** C9 as stated fails: ['warehouse_id'] is present, holding the empty
    string, and yet ['warehouse'] supplies the reference. *)
Lemma empty_warehouse_id_is_skipped :
  exists p,
    rec_warehouse_id record_with_empty_warehouse_id = Some (Some ""%string) /\
    parse_package record_with_empty_warehouse_id = Ok p /\
    p.(warehouse) = Some "W1"%string /\
    p.(warehouse) <> Some ""%string.
Proof. eexists. repeat split; try reflexivity. discriminate. Qed.

End Loading.

(** ** Assignment policy *)

Module Policy.

Import FloatFacts DictFacts Nearest Assignment Init Completeness Accounting.
Local Open Scope float_scope.


(** C1, at its failing input.  On the catalog whose only agent has the
    empty identifier, the nearest agent is found (it stands on the warehouse) and then discarded by the
    truth test on its identifier: the package is assigned to no one. *)
Theorem empty_identifier_agent_gets_no_package :
  exists self,
    init agent_named_empty = Ok self /\
    find_nearest_agent self (0, 0) = Ok (Some ""%string) /\
    assign_packages_to_agents self = Ok [(""%string, [])].
Proof. eexists. split; [reflexivity|]. split; vm_compute; reflexivity. Qed.

(** Two agents at the same distance from the warehouse: the one that comes
    first in the agents mapping gets the package, whichever it is. *)
Example tie_goes_to_the_first_agent :
  let whs := LocDict [("W1"%string, (0, 0))] in
  let pk := [mkPackageRecord (Some "P1"%string) None (Some (Some "W1"%string))
                             (Some (3, 4))] in
  let east := ("E"%string, (1, 0)) in
  let north := ("N"%string, (0, 1)) in
  bind (init (mkJsonData whs (LocDict [east; north]) pk)) assign_packages_to_agents
    = Ok [("E"%string, [mkPackage "P1" (Some "W1"%string) (3, 4)]); ("N"%string, [])] /\
  bind (init (mkJsonData whs (LocDict [north; east]) pk)) assign_packages_to_agents
    = Ok [("N"%string, [mkPackage "P1" (Some "W1"%string) (3, 4)]); ("E"%string, [])].
Proof. split; vm_compute; reflexivity. Qed.

(** An agent whose distance to the warehouse overflows to infinity is never
    selected, so a fleet of such agents drops the package. *)
Example agent_out_of_reach_is_not_selected :
  bind (init (mkJsonData (LocDict [("W1"%string, (- 0x1p+1023, 0))])
                         (LocDict [("A1"%string, (0x1p+1023, 0))])
                         [mkPackageRecord (Some "P1"%string) None
                                          (Some (Some "W1"%string)) (Some (3, 4))]))
       assign_packages_to_agents
  = Ok [("A1"%string, [])].
Proof. vm_compute. reflexivity. Qed.

End Policy.

(** ** Mid-run agent injection *)

Module Injection.

Import DictFacts Init.

(** A catalog whose only agent is called A2. *)
Definition fleet_of_A2 : json_data :=
  mkJsonData
    (LocDict [("W1"%string, (0%float, 0%float))])
    (LocDict [("A2"%string, (5%float, 5%float))])
    [mkPackageRecord (Some "P1"%string) None (Some (Some "W1"%string))
                     (Some (3%float, 4%float))].

(** The identifier minted for the injected agent. *)
Definition new_agent_id (self : FastBoxDeliverySystem) : string :=
  String.append "A" (string_of_nat (List.length self.(agents) + 1)).

(** C6, at its failing input.  On a fleet whose only agent is called A2 the
    minted identifier is A2 again: injection adds no agent, and moves and resets the existing one. *)
Theorem injection_reuses_identifier :
  exists self,
    init fleet_of_A2 = Ok self /\
    Dict.keys self.(agents) = ["A2"%string] /\
    Dict.get self.(agents) "A2"%string = Some (5%float, 5%float) /\
    new_agent_id self = "A2"%string /\
    let self' := _add_new_agent_mid_day (fun _ => 0.5%float) self in
    Dict.keys self'.(agents) = ["A2"%string] /\
    Dict.get self'.(agents) "A2"%string = Some (50%float, 50%float).
Proof. eexists. split; [reflexivity|]. repeat split; vm_compute; reflexivity. Qed.

(** When the minted identifier is free and there is at least one package,
    injection appends exactly one agent, at the location made of the next
    two draws scaled to [0, 100], with fresh statistics; every other agent
    and its statistics are untouched.  Disabled, or without packages, the
    fleet at assignment time is the loaded one. *)
Theorem injection_appends_one_agent (random : nat -> float)
    (self : FastBoxDeliverySystem) :
  Dict.keys self.(agent_stats) = Dict.keys self.(agents) ->
  ~ In (new_agent_id self) (Dict.keys self.(agents)) ->
  (self.(packages) <> [] ->
   let loc := (uniform random self.(rng) 0 100, uniform random (S self.(rng)) 0 100) in
   let self' := _add_new_agent_mid_day random self in
   self'.(agents) = self.(agents) ++ [(new_agent_id self, loc)] /\
   self'.(agent_stats) =
     self.(agent_stats) ++ [(new_agent_id self, mkAgentStats 0 0%float loc [])] /\
   self'.(rng) = S (S self.(rng))) /\
  (self.(packages) = [] -> _add_new_agent_mid_day random self = self) /\
  (forall enable_delays,
     (Init.fleet_at_assignment random self enable_delays false).(agents) =
     self.(agents)).
Proof.
  intros K N. repeat split.
  - unfold _add_new_agent_mid_day. destruct (packages self); [congruence|].
    cbn. apply setitem_absent. exact N.
  - unfold _add_new_agent_mid_day. destruct (packages self); [congruence|].
    cbn. apply setitem_absent. rewrite K. exact N.
  - unfold _add_new_agent_mid_day. destruct (packages self); [congruence|].
    reflexivity.
  - intros E. unfold _add_new_agent_mid_day. now rewrite E.
Qed.

End Injection.

(** ** The theorems at work on concrete catalogs *)

Module Instances.

Import DictFacts Nearest Assignment Init Accounting Delays Best Report Efficiency
       Completeness EmptyFleet Loading Policy Injection.
Local Open Scope float_scope.

(** A generator that always returns one half. *)
Definition halves (k : nat) : float := 0.5.

(** The state a catalog is in after loading and one run without delays and
    without injection (the empty system if anything raised). *)
Definition after_run (data : json_data) : FastBoxDeliverySystem :=
  match bind (init data) (fun s => simulate_delivery halves s false false) with
  | Ok s => s
  | Raise _ => mkSystem [] [] [] [] false 0
  end.

(** A catalog without agents, its package at a known warehouse. *)
Definition no_agents : json_data :=
  mkJsonData
    (LocDict [("W1"%string, (0, 0))])
    (LocDict [])
    [mkPackageRecord (Some "P1"%string) None (Some (Some "W1"%string)) (Some (3, 4))].


(** The state a catalog is in after loading (the empty system if loading
    raised). *)
Definition loaded (data : json_data) : FastBoxDeliverySystem :=
  match init data with
  | Ok s => s
  | Raise _ => mkSystem [] [] [] [] false 0
  end.




Lemma calculate_efficiency_report_witness :
  Dict.get (calculate_efficiency py_round2 (after_run scenario_8_2)) "A1"%string =
  Some (Entry (mkAgentReport 1 (py_round2 0x1.c48c6001f0ac0p+2)
                             (py_round2 (0x1.c48c6001f0ac0p+2 / PyFloat.of_nat 1)))).
Proof.
  refine (proj1 (calculate_efficiency_report py_round2 (after_run scenario_8_2) _)
            "A1"%string
            (mkAgentStats 1 0x1.c48c6001f0ac0p+2 (5, 5)
               [mkRouteStep (0, 0) (0, 0) 0 to_warehouse;
                mkRouteStep (0, 0) (5, 5) 0x1.c48c6001f0ac0p+2 delivery])
            _ _).
  - vm_compute. repeat constructor; cbn; intuition discriminate.
  - vm_compute. reflexivity.
  - discriminate.
Defined.

Lemma empty_fleet_drops_every_package_witness :
  assign_packages_to_agents (loaded no_agents) = Ok [] /\
  generate_report py_round2 (set_enable_random_delays (loaded no_agents) false) =
    Ok ([], true).
Proof.
  destruct (empty_fleet_drops_every_package halves py_round2 no_agents false
              (loaded no_agents)) as (A & _ & _ & _ & _ & _ & _ & G).
  - reflexivity.
  - reflexivity.
  - repeat constructor. eexists. reflexivity.
  - split; [exact A|exact G].
Defined.




Lemma injection_appends_one_agent_witness :
  Dict.keys (_add_new_agent_mid_day halves (loaded scenario_8_2)).(agents) =
  ["A1"%string; "A2"%string; "A3"%string].
Proof.
  destruct (injection_appends_one_agent halves (loaded scenario_8_2)) as (A & _).
  - reflexivity.
  - vm_compute. intuition discriminate.
  - destruct A as (-> & _); [discriminate|reflexivity].
Defined.

End Instances.

(** * Further properties *)

(** ** Geometry of [calculate_distance] *)

Module Geometry.

Local Open Scope float_scope.

(** Two results of a subtraction and of the subtraction the other way
    round: opposite, or both [+0]. *)
Definition flipped (a b : spec_float) : Prop :=
  b = SFopp a \/ (a = S754_zero false /\ b = S754_zero false).

Lemma binary_round_aux_sign m e l :
  binary_round_aux prec emax true m e l = SFopp (binary_round_aux prec emax false m e l).
Proof.
  unfold binary_round_aux.
  destruct (shr_fexp prec emax m e l) as [mrs' e'].
  destruct (shr_fexp prec emax _ e' loc_Exact) as [mrs'' e''].
  destruct (shr_m mrs''); try reflexivity.
  now destruct (e'' <=? emax - prec)%Z.
Qed.

Lemma binary_normalize_opp n e :
  flipped (binary_normalize prec emax n e false) (binary_normalize prec emax (- n) e false).
Proof.
  destruct n as [|p|p]; simpl.
  - right. now split.
  - left. unfold binary_round. destruct (shl_align _ _ _) as [mz ez].
    apply binary_round_aux_sign.
  - left. unfold binary_round. destruct (shl_align _ _ _) as [mz ez].
    rewrite binary_round_aux_sign.
    now destruct (binary_round_aux prec emax false (Z.pos mz) ez loc_Exact) as [[]|[]| |[] ? ?].
Qed.

Lemma SFsub_flipped x y : flipped (SF64sub x y) (SF64sub y x).
Proof.
  destruct x as [sx|sx| |sx mx ex], y as [sy|sy| |sy my ey]; simpl;
    try (left; reflexivity);
    try (destruct sx, sy; simpl; (left; reflexivity) || (right; split; reflexivity)).
  change (IntDef.Z.min ey ex) with (Z.min ey ex).
  change (IntDef.Z.min ex ey) with (Z.min ex ey).
  rewrite (Z.min_comm ey ex).
  set (a := cond_Zopp sx _). set (b := cond_Zopp sy _).
  replace (b - a)%Z with (- (a - b))%Z by lia.
  apply binary_normalize_opp.
Qed.

Lemma SFmul_opp_opp r : SF64mul (SFopp r) (SFopp r) = SF64mul r r.
Proof. destruct r as [[]|[]| |[] m e]; reflexivity. Qed.

Lemma pow2_sub_sym (x y : float) : PyFloat.pow2 (x - y) = PyFloat.pow2 (y - x).
Proof.
  unfold PyFloat.pow2. apply Prim2SF_inj. rewrite !mul_spec, !sub_spec.
  destruct (SFsub_flipped (Prim2SF x) (Prim2SF y)) as [->|[-> ->]];
    [|reflexivity].
  now rewrite SFmul_opp_opp.
Qed.

(** The classes of binary64 values: a number (zero or finite), and a value
    that is not below zero (NaN included, which compares below nothing). *)
Definition is_number (x : float) : bool :=
  match Prim2SF x with
  | S754_zero _ | S754_finite _ _ _ => true
  | _ => false
  end.

Definition not_negative (x : spec_float) : bool :=
  match x with
  | S754_infinity true | S754_finite true _ _ => false
  | _ => true
  end.

Lemma is_finite_number (x : float) : PrimFloat.is_finite x = is_number x.
Proof.
  unfold PrimFloat.is_finite, is_nan, is_infinity, is_number.
  rewrite !FloatAxioms.eqb_spec, abs_spec.
  change (Prim2SF infinity) with (S754_infinity false).
  destruct (Prim2SF x) as [s|s| |s m e]; try reflexivity.
  - now destruct s.
  - cbn. unfold SFeqb, SFcompare.
    rewrite Z.compare_refl, Pos.compare_cont_refl. now destruct s.
Qed.

Lemma sub_diag_number (x : float) : is_number x = true -> x - x = 0.
Proof.
  unfold is_number. intros N. apply Prim2SF_inj. rewrite sub_spec.
  change (Prim2SF 0) with (S754_zero false).
  destruct (Prim2SF x) as [s|s| |s m e]; try discriminate.
  - now destruct s.
  - cbn. now rewrite Z.sub_diag.
Qed.

Lemma binary_round_aux_not_negative m e l :
  not_negative (binary_round_aux prec emax false m e l) = true.
Proof.
  unfold binary_round_aux.
  destruct (shr_fexp prec emax m e l) as [mrs' e'].
  destruct (shr_fexp prec emax _ e' loc_Exact) as [mrs'' e''].
  destruct (shr_m mrs''); try reflexivity.
  now destruct (e'' <=? emax - prec)%Z.
Qed.

Lemma sqrt_not_negative (x : float) : not_negative (Prim2SF (PrimFloat.sqrt x)) = true.
Proof.
  rewrite sqrt_spec. unfold SF64sqrt, SFsqrt.
  destruct (Prim2SF x) as [s|[]| |[] m e]; try reflexivity.
  destruct (SFsqrt_core_binary prec emax (Z.pos m) e) as [[mz ez] lz].
  apply binary_round_aux_not_negative.
Qed.

Lemma not_negative_ltb (x : float) :
  not_negative (Prim2SF x) = true -> (x <? 0) = false.
Proof.
  rewrite ltb_spec. change (Prim2SF 0) with (S754_zero false).
  unfold SFltb. destruct (Prim2SF x) as [s|[]| |[] m e]; try reflexivity; discriminate.
Qed.

Lemma not_negative_leb (x : float) :
  not_negative (Prim2SF x) = true -> is_nan x = false -> (0 <=? x) = true.
Proof.
  unfold is_nan. rewrite leb_spec, FloatAxioms.eqb_spec. change (Prim2SF 0) with (S754_zero false).
  unfold SFleb, SFeqb. destruct (Prim2SF x) as [s|[]| |[] m e]; try reflexivity; discriminate.
Qed.













(** The distance does not depend on the direction of travel. *)
Theorem calculate_distance_symmetric (p q : point) :
  calculate_distance p q = calculate_distance q p.
Proof.
  destruct p as [x1 y1], q as [x2 y2]. unfold calculate_distance.
  now rewrite (pow2_sub_sym x2 x1), (pow2_sub_sym y2 y1).
Qed.

(** A distance is never below zero, whatever the points, and unless it is
    NaN it is at least zero. *)
Theorem calculate_distance_not_negative (p q : point) :
  (calculate_distance p q <? 0) = false /\
  (is_nan (calculate_distance p q) = false -> (0 <=? calculate_distance p q) = true).
Proof.
  destruct p as [x1 y1], q as [x2 y2]. unfold calculate_distance.
  split; [apply not_negative_ltb|apply not_negative_leb]; apply sqrt_not_negative.
Qed.

(** The distance from a point with finite coordinates to itself is zero. *)
Theorem calculate_distance_self (p : point) :
  PrimFloat.is_finite (fst p) = true -> PrimFloat.is_finite (snd p) = true ->
  calculate_distance p p = 0.
Proof.
  destruct p as [x y]. cbn [fst snd]. rewrite !is_finite_number. intros Hx Hy.
  unfold calculate_distance. rewrite (sub_diag_number x Hx), (sub_diag_number y Hy).
  reflexivity.
Qed.


Lemma calculate_distance_self_witness : calculate_distance (3, 4) (3, 4) = 0.
Proof. apply (calculate_distance_self (3, 4)); reflexivity. Defined.


End Geometry.

(** ** Loading: the parsers and [__init__] *)

Module Parsing.

Import DictFacts Init Loading.

Lemma get_app {V : Type} (d1 d2 : dict string V) k :
  Dict.get (d1 ++ d2) k =
  match Dict.get d1 k with Some v => Some v | None => Dict.get d2 k end.
Proof.
  induction d1 as [|[k' v'] d1 IH]; simpl; [reflexivity|].
  now destruct (String.eqb k' k).
Qed.

(** Storing records one by one: the last record of an identifier wins. *)
Lemma get_fold_setitem {V : Type} (l : list (string * V)) :
  forall (acc : dict string V) k,
    Dict.get (fold_left (fun r a => Dict.setitem r (fst a) (snd a)) l acc) k =
    match Dict.get (rev l) k with Some v => Some v | None => Dict.get acc k end.
Proof.
  induction l as [|[k' v'] l IH]; intros acc k; [reflexivity|].
  cbn [fold_left rev fst snd]. rewrite IH, get_app.
  destruct (Dict.get (rev l) k) as [v|]; [reflexivity|].
  cbn [Dict.get]. destruct (key_eqb_spec k' k) as [->|N].
  - apply get_setitem_eq.
  - now apply get_setitem_neq.
Qed.

Lemma keys_fold_setitem {V : Type} (l : list (string * V)) :
  forall (acc : dict string V) k,
    In k (Dict.keys (fold_left (fun r a => Dict.setitem r (fst a) (snd a)) l acc)) <->
    In k (map fst l) \/ In k (Dict.keys acc).
Proof.
  intros acc k. split.
  - intros I. apply In_get_Some in I as [v E]. rewrite get_fold_setitem in E.
    destruct (Dict.get (rev l) k) as [v'|] eqn:R.
    + left. apply get_Some_In in R. unfold Dict.keys in R.
      rewrite map_rev in R. now apply in_rev.
    + right. now apply get_Some_In in E.
  - intros I.
    assert (G : exists v, Dict.get (fold_left (fun r a => Dict.setitem r (fst a) (snd a)) l acc) k
                          = Some v).
    { rewrite get_fold_setitem. destruct I as [I|I].
      - destruct (In_get_Some (rev l) k) as [v ->]; eauto.
        unfold Dict.keys. rewrite map_rev. now apply in_rev in I.
      - destruct (Dict.get (rev l) k); eauto. now apply In_get_Some. }
    destruct G as [v G]. now apply get_Some_In in G.
Qed.

(** [_parse_warehouses] and [_parse_agents] are the same function.  The
    mapping they build has no identifier twice; a list or mapping of records
    with distinct identifiers is taken over as it is, in order; when a list
    names an identifier more than once, its last location wins; and input
    that is neither a list nor a mapping gives the empty mapping. *)
Theorem parse_locations :
  (forall data, _parse_agents data = _parse_warehouses data) /\
  (forall data, NoDup (Dict.keys (_parse_warehouses data))) /\
  (forall records, NoDup (map fst records) ->
     _parse_warehouses (LocList records) = records /\
     _parse_warehouses (LocDict records) = records) /\
  (forall records k,
     Dict.get (_parse_warehouses (LocList records)) k = Dict.get (rev records) k /\
     (In k (Dict.keys (_parse_warehouses (LocList records))) <-> In k (map fst records))) /\
  _parse_warehouses LocOther = [].
Proof.
  split; [reflexivity|]. split; [exact _parse_agents_NoDup|].
  split; [|split; [|reflexivity]].
  - intros records ND.
    assert (E : fold_left (fun r a => Dict.setitem r (fst a) (snd a)) records [] = records).
    { rewrite (fold_setitem_map (fun v : point => v) records []) by (auto; intros k _ []).
      cbn [app]. rewrite <- (map_id records) at 2. apply map_ext. now intros []. }
    split; exact E.
  - intros records k. cbn [_parse_warehouses]. split.
    + rewrite get_fold_setitem. now destruct (Dict.get (rev records) k).
    + rewrite keys_fold_setitem. cbn. tauto.
Qed.

(** The field whose absence makes [_parse_packages] fail on a record:
    ['id'] is read first. *)
Definition missing_field (r : package_record) : string :=
  match r.(rec_id) with
  | None => "id"
  | Some _ => "destination"
  end.

Lemma parse_package_missing r :
  lacks_required_field r -> parse_package r = Raise (KeyError (Some (missing_field r))).
Proof.
  unfold lacks_required_field, parse_package, missing_field.
  destruct r as [[pid|] wid wh [dest|]]; cbn; intros [C|C]; congruence.
Qed.

(** [_parse_packages] keeps one package per record, in the order of the
    records, with the record's identifier and destination; and it stops at
    the first record that lacks ['id'] or ['destination'], whatever comes
    after it, with the [KeyError] of the field it read first. *)
Theorem parse_packages_in_order :
  (forall recs pkgs, _parse_packages recs = Ok pkgs ->
     Forall2 (fun r p => r.(rec_id) = Some p.(id) /\
                         r.(rec_destination) = Some p.(destination) /\
                         p.(warehouse) = py_or (record_get r.(rec_warehouse_id))
                                               (record_get r.(rec_warehouse)))
             recs pkgs) /\
  (forall good r rest,
     Forall (fun r => ~ lacks_required_field r) good ->
     lacks_required_field r ->
     _parse_packages (good ++ r :: rest) = Raise (KeyError (Some (missing_field r)))).
Proof.
  split.
  - induction recs as [|r recs IH]; intros pkgs; cbn [_parse_packages].
    + intros [= <-]. constructor.
    + pose proof (parse_package_result r) as P.
      destruct (parse_package r) as [p|e]; [|discriminate].
      destruct (_parse_packages recs) as [ps|e]; [|discriminate].
      cbn. intros [= <-]. destruct P as (pid & dest & Hid & Hdest & ->).
      constructor; [now repeat split|]. now apply IH.
  - intros good r rest G L. induction G as [|g good Ng _ IH]; cbn [app _parse_packages].
    + now rewrite (parse_package_missing r L).
    + pose proof (parse_package_result g) as P.
      destruct (parse_package g) as [p|e]; [|tauto].
      cbn [bind]. now rewrite IH.
Qed.

(** After [__init__]: every agent, and nothing else, has statistics, in
    agent order, with nothing delivered, zero distance, an empty history and
    the agent's loaded location as current location; agent identifiers are
    distinct; random delays are off. *)
Theorem init_statistics (data : json_data) (self : FastBoxDeliverySystem) :
  init data = Ok self ->
  self.(agents) = _parse_agents data.(data_agents) /\
  self.(warehouses) = _parse_warehouses data.(data_warehouses) /\
  self.(agent_stats) =
    map (fun a => (fst a, mkAgentStats 0 0%float (snd a) [])) self.(agents) /\
  NoDup (Dict.keys self.(agents)) /\
  self.(enable_random_delays) = false.
Proof.
  intros E. destruct (init_all_fresh data self E) as [F ND].
  unfold init in E. destruct (_parse_packages _); [|discriminate].
  injection E as <-. now repeat split.
Qed.

Lemma parse_locations_witness :
  _parse_warehouses (LocList [("W1", (0, 0)); ("W2", (1, 1))]%float%string) =
  [("W1", (0, 0)); ("W2", (1, 1))]%float%string.
Proof.
  apply (proj1 (proj2 (proj2 parse_locations))).
  repeat constructor; cbn; intuition discriminate.
Defined.

Lemma parse_packages_in_order_witness :
  _parse_packages
    [mkPackageRecord (Some "P1"%string) None (Some (Some "W1"%string)) (Some (5, 5)%float);
     mkPackageRecord None None None None;
     mkPackageRecord (Some "P3"%string) None None None] =
  Raise (KeyError (Some "id"%string)).
Proof.
  apply (proj2 parse_packages_in_order
           [mkPackageRecord (Some "P1"%string) None (Some (Some "W1"%string))
                            (Some (5, 5)%float)]).
  - repeat constructor. intros [C|C]; discriminate.
  - left. reflexivity.
Defined.

Lemma init_statistics_witness :
  (Instances.loaded Accounting.scenario_8_2).(agent_stats) =
  [("A1"%string, mkAgentStats 0 0%float (0, 0)%float []);
   ("A2"%string, mkAgentStats 0 0%float (10, 10)%float [])].
Proof.
  destruct (init_statistics Accounting.scenario_8_2 (Instances.loaded Accounting.scenario_8_2))
    as (_ & _ & S & _); [reflexivity|].
  exact S.
Defined.

End Parsing.

(** ** Nearest agent among candidates *)

Module Candidates.

Import FloatFacts DictFacts Nearest.
Local Open Scope float_scope.




End Candidates.

(** ** Runs from any state: invariant, accumulation, continuity *)

Module Runs.

Import DictFacts Assignment Grouping Route Fleet Init Run Accounting Completeness.
Local Open Scope float_scope.

(** Each leg starts where the previous one ended, the first one at [from]. *)
Fixpoint chained (from : point) (steps : list RouteStep) : Prop :=
  match steps with
  | [] => True
  | s :: rest => s.(step_from) = from /\ chained s.(step_to) rest
  end.

Lemma chained_app from l1 l2 :
  chained from l1 -> chained (last (map step_to l1) from) l2 ->
  chained from (l1 ++ l2).
Proof.
  revert from. induction l1 as [|s l1 IH]; intros from H1 H2; [exact H2|].
  destruct H1 as [Hs H1]. split; [exact Hs|]. apply IH; [exact H1|].
  cbn [map] in H2. now rewrite last_cons_default in H2.
Qed.

Section Walk.

Variable random : nat -> float.

Lemma delivery_steps_chained delays pkgs :
  forall k from, chained from (delivery_steps random delays k from pkgs).
Proof. induction pkgs as [|p pkgs IH]; intros k from; cbn; auto. Qed.

Lemma delivery_steps_to delays pkgs :
  forall k from,
    map step_to (delivery_steps random delays k from pkgs) = map destination pkgs.
Proof. induction pkgs as [|p pkgs IH]; intros k from; cbn; f_equal; auto. Qed.

Lemma delivery_steps_all_deliveries delays pkgs :
  forall k from,
    filter is_delivery (delivery_steps random delays k from pkgs) =
    delivery_steps random delays k from pkgs.
Proof. induction pkgs as [|p pkgs IH]; intros k from; cbn; f_equal; auto. Qed.

Lemma route_steps_chained delays whs groups :
  forall k from, chained from (route_steps random delays whs k from groups).
Proof.
  induction groups as [|[w ps] groups IH]; intros k from; cbn [route_steps];
    [exact I|].
  destruct (getitem_ref whs w) as [wl|]; [|exact I].
  split; [reflexivity|]. cbn [step_to].
  apply chained_app; [apply delivery_steps_chained|].
  rewrite delivery_steps_to. apply IH.
Qed.

Lemma route_steps_end delays whs groups :
  forall k from,
    route_end whs from groups =
    last (map step_to (route_steps random delays whs k from groups)) from.
Proof.
  induction groups as [|[w ps] groups IH]; intros k from;
    cbn [route_steps route_end]; [reflexivity|].
  destruct (getitem_ref whs w) as [wl|]; [|reflexivity].
  cbn [map step_to]. rewrite last_cons_default, map_app, last_app_default.
  rewrite delivery_steps_to. apply IH.
Qed.

Lemma route_steps_length delays whs groups :
  Forall (fun g => exists wl, getitem_ref whs (fst g) = Ok wl) groups ->
  forall k from,
    List.length (route_steps random delays whs k from groups) =
    (List.length groups + group_total groups)%nat.
Proof.
  intros R. induction R as [|[w ps] groups [wl Hw] R IH]; intros k from;
    [reflexivity|].
  cbn [fst] in Hw. cbn [route_steps]. rewrite Hw.
  cbn [List.length group_total fold_right snd]. rewrite length_app, IH.
  rewrite Delays.delivery_steps_length. fold (group_total groups). lia.
Qed.

Lemma route_steps_deliveries delays whs groups :
  Forall (fun g => exists wl, getitem_ref whs (fst g) = Ok wl) groups ->
  forall k from,
    map step_to (filter is_delivery (route_steps random delays whs k from groups)) =
    map destination (flat_map snd groups).
Proof.
  intros R. induction R as [|[w ps] groups [wl Hw] R IH]; intros k from;
    [reflexivity|].
  cbn [fst] in Hw. cbn [route_steps]. rewrite Hw.
  cbn [filter is_delivery step_type flat_map snd].
  rewrite filter_app, !map_app, delivery_steps_all_deliveries, delivery_steps_to.
  now rewrite IH.
Qed.

Lemma flat_map_groups_length (groups : list (option string * list Package)) :
  List.length (flat_map snd groups) = group_total groups.
Proof.
  induction groups as [|[w ps] groups IH]; [reflexivity|].
  cbn [flat_map group_total fold_right snd]. rewrite length_app, IH. reflexivity.
Qed.

Lemma with_location_same (st : AgentStats) : with_location st st.(current_location) = st.
Proof. now destruct st. Qed.

(** An agent without packages comes out of its turn as it went in. *)
Lemma agent_after_nil delays whs k st : agent_after random delays whs k st [] = st.
Proof. unfold agent_after, agent_route. cbn. apply with_location_same. Qed.

(** What walking the route of its packages [pk] does to an agent. *)
Lemma agent_after_spec delays whs k st pk :
  Forall (resolves whs) pk ->
  let st' := agent_after random delays whs k st pk in
  let route := agent_route random delays whs k st pk in
  route_history st' = route_history st ++ route /\
  packages_delivered st' = (packages_delivered st + List.length pk)%nat /\
  total_distance st' =
    fold_left PrimFloat.add (map step_distance route) (total_distance st) /\
  current_location st' = last (map step_to route) (current_location st) /\
  chained (current_location st) route /\
  List.length route = (List.length (groups_of pk) + List.length pk)%nat /\
  map step_to (filter is_delivery route) = map destination (flat_map snd (groups_of pk)).
Proof.
  intros R st' route. pose proof (groups_of_resolve whs pk R) as RG.
  split; [apply apply_steps_history|].
  split; [now apply agent_after_delivered|].
  split; [apply apply_steps_total|].
  split; [apply route_steps_end|].
  split; [apply route_steps_chained|].
  split; [|now apply route_steps_deliveries].
  unfold route, agent_route. rewrite (route_steps_length _ _ _ RG).
  now rewrite group_total_groups_of.
Qed.

End Walk.

Lemma keys_setitem_both {A B : Type} (d1 : dict string A) (d2 : dict string B) k v1 v2 :
  Dict.keys d1 = Dict.keys d2 ->
  Dict.keys (Dict.setitem d1 k v1) = Dict.keys (Dict.setitem d2 k v2).
Proof.
  intros K. destruct (in_dec string_dec k (Dict.keys d1)) as [I|N].
  - rewrite !keys_setitem_present; congruence.
  - rewrite !keys_setitem_absent; congruence.
Qed.

(** The invariant holds for the fleet at assignment time, injection or not. *)
Lemma fleet_at_assignment_ok random self enable_delays new_agent_mid_day :
  stats_ok self ->
  stats_ok (fleet_at_assignment random self enable_delays new_agent_mid_day).
Proof.
  intros [K ND]. unfold fleet_at_assignment, _add_new_agent_mid_day.
  destruct new_agent_mid_day; [|split; assumption].
  cbn [packages set_enable_random_delays].
  destruct (0 <? List.length (packages self))%nat; [|split; assumption].
  split; cbn.
  - now apply keys_setitem_both.
  - now apply NoDup_keys_setitem.
Qed.

(** A run that completes, agent by agent: each agent that had statistics
    at assignment time ends with those of its walked route. *)
Lemma simulate_delivery_agents random self enable_delays new_agent_mid_day self' :
  stats_ok self ->
  simulate_delivery random self enable_delays new_agent_mid_day = Ok self' ->
  let s := fleet_at_assignment random self enable_delays new_agent_mid_day in
  exists asg,
    assign_packages_to_agents s = Ok asg /\
    self' = final_state random s asg /\
    Dict.keys asg = Dict.keys s.(agents) /\
    forall a st, Dict.get s.(agent_stats) a = Some st ->
      let pk := filter (assigned_to s a) s.(packages) in
      Dict.get asg a = Some pk /\
      Forall (resolves s.(warehouses)) pk /\
      exists k, Dict.get self'.(agent_stats) a =
                Some (agent_after random enable_delays s.(warehouses) k st pk).
Proof.
  intros OK0 Hsim s.
  pose proof (fleet_at_assignment_ok random self enable_delays new_agent_mid_day OK0)
    as OK. fold s in OK.
  destruct (fleet_at_assignment_static random self enable_delays new_agent_mid_day)
    as (_ & _ & D). fold s in D.
  destruct (assign_packages_to_agents s) as [asg|e] eqn:E.
  2:{ rewrite simulate_delivery_unfold in Hsim. fold s in Hsim.
      rewrite E in Hsim. discriminate. }
  destruct (simulate_delivery_spec random self enable_delays new_agent_mid_day asg OK E)
    as (Es & K & _ & G).
  fold s in K, G. rewrite Es in Hsim. injection Hsim as <-. fold s.
  pose proof (assign_loop_ok_resolves _ _ _ _ E) as R.
  exists asg. split; [reflexivity|]. split; [reflexivity|]. split; [exact K|].
  intros a st Ea pk.
  assert (Ia : In a (Dict.keys s.(agents))).
  { rewrite <- (proj1 OK). now apply get_Some_In in Ea. }
  pose proof (G a Ia) as Ga. fold pk in Ga.
  assert (Rpk : Forall (resolves s.(warehouses)) pk).
  { apply Forall_forall. intros p Ip. apply filter_In in Ip as [Ip _].
    rewrite Forall_forall in R. now apply R. }
  split; [exact Ga|]. split; [exact Rpk|].
  assert (ND : NoDup (map fst asg)).
  { change (map fst asg) with (Dict.keys asg). rewrite K. apply OK. }
  pose proof (run_agents_agent random (enable_random_delays s) (warehouses s)
                asg a pk (agent_stats s) (rng s) ND (get_In_items _ _ _ Ga)) as RA.
  unfold final_state. cbn [agent_stats]. rewrite D in *.
  destruct pk as [|p pk'] eqn:Epk.
  - exists 0%nat. rewrite RA, Ea. now rewrite agent_after_nil.
  - exact (RA st Ea).
Qed.

(** A run that completes keeps the invariant of the statistics (every
    agent has statistics, in agent order, under distinct identifiers), so
    it can be followed by another run; it changes neither the warehouses
    nor the packages, leaves the delay flag as requested, and changes the
    fleet only through injection. *)
Theorem simulate_delivery_keeps_invariant (random : nat -> float)
    (self self' : FastBoxDeliverySystem) (enable_delays new_agent_mid_day : bool) :
  stats_ok self ->
  simulate_delivery random self enable_delays new_agent_mid_day = Ok self' ->
  stats_ok self' /\
  self'.(warehouses) = self.(warehouses) /\
  self'.(packages) = self.(packages) /\
  self'.(enable_random_delays) = enable_delays /\
  self'.(agents) =
    (if new_agent_mid_day
     then _add_new_agent_mid_day random (set_enable_random_delays self enable_delays)
     else self).(agents).
Proof.
  intros OK0 Hsim.
  pose proof (fleet_at_assignment_ok random self enable_delays new_agent_mid_day OK0)
    as OK.
  destruct (fleet_at_assignment_static random self enable_delays new_agent_mid_day)
    as (W & P & D).
  destruct (simulate_delivery_agents random self enable_delays new_agent_mid_day self'
              OK0 Hsim) as (asg & _ & -> & _).
  unfold final_state. cbn [warehouses packages enable_random_delays agents agent_stats].
  repeat split; try assumption.
  - cbn [agent_stats agents]. rewrite run_agents_keys. apply OK.
  - apply OK.
  - unfold fleet_at_assignment. now destruct new_agent_mid_day.
Qed.

(** Statistics accumulate over runs.  In a run that completes, an agent
    that is handed no package keeps its statistics unchanged; an agent that
    is handed some has its delivered count raised by their number, its
    history extended by one leg per distinct warehouse and one per package,
    the delivery legs ending at the destinations of its packages grouped by
    warehouse, and its total distance raised by the recorded lengths of
    those legs, added one by one in route order. *)
Theorem simulate_delivery_accumulates (random : nat -> float)
    (self self' : FastBoxDeliverySystem) (enable_delays new_agent_mid_day : bool) :
  stats_ok self ->
  simulate_delivery random self enable_delays new_agent_mid_day = Ok self' ->
  let s := fleet_at_assignment random self enable_delays new_agent_mid_day in
  exists asg,
    assign_packages_to_agents s = Ok asg /\
    forall a st, Dict.get s.(agent_stats) a = Some st ->
      exists pk st' route,
        Dict.get asg a = Some pk /\
        Dict.get self'.(agent_stats) a = Some st' /\
        (pk = [] -> st' = st) /\
        route_history st' = route_history st ++ route /\
        packages_delivered st' = (packages_delivered st + List.length pk)%nat /\
        List.length route = (List.length (groups_of pk) + List.length pk)%nat /\
        map step_to (filter is_delivery route) =
          map destination (flat_map snd (groups_of pk)) /\
        total_distance st' =
          fold_left PrimFloat.add (map step_distance route) (total_distance st).
Proof.
  intros OK0 Hsim s.
  destruct (simulate_delivery_agents random self enable_delays new_agent_mid_day self'
              OK0 Hsim) as (asg & E & _ & _ & H).
  fold s in E, H. exists asg. split; [exact E|].
  intros a st Ea. destruct (H a st Ea) as (Ga & R & k & Hk).
  set (pk := filter (assigned_to s a) (packages s)) in *.
  destruct (agent_after_spec random enable_delays (warehouses s) k st pk R)
    as (Hh & Hd & Ht & _ & _ & Hl & Hm).
  exists pk, (agent_after random enable_delays (warehouses s) k st pk),
         (agent_route random enable_delays (warehouses s) k st pk).
  repeat split; try assumption.
  intros ->. apply agent_after_nil.
Qed.

(** The recorded route is continuous.  The legs a run adds to the history
    of an agent start at the location the agent had before the run, each
    leg starts where the previous one ended, and the agent is left at the
    end of the last leg (where it was, when no leg was added). *)
Theorem recorded_route_is_continuous (random : nat -> float)
    (self self' : FastBoxDeliverySystem) (enable_delays new_agent_mid_day : bool) :
  stats_ok self ->
  simulate_delivery random self enable_delays new_agent_mid_day = Ok self' ->
  let s := fleet_at_assignment random self enable_delays new_agent_mid_day in
  forall a st, Dict.get s.(agent_stats) a = Some st ->
    exists st' route,
      Dict.get self'.(agent_stats) a = Some st' /\
      route_history st' = route_history st ++ route /\
      chained st.(current_location) route /\
      current_location st' = last (map step_to route) st.(current_location).
Proof.
  intros OK0 Hsim s a st Ea.
  destruct (simulate_delivery_agents random self enable_delays new_agent_mid_day self'
              OK0 Hsim) as (asg & _ & _ & _ & H).
  fold s in H. destruct (H a st Ea) as (_ & R & k & Hk).
  set (pk := filter (assigned_to s a) (packages s)) in *.
  destruct (agent_after_spec random enable_delays (warehouses s) k st pk R)
    as (Hh & _ & _ & Hc & Hch & _).
  exists (agent_after random enable_delays (warehouses s) k st pk),
         (agent_route random enable_delays (warehouses s) k st pk).
  now repeat split.
Qed.

(** ** Runs without delays never consult the generator *)

Lemma simulate_random_delay_off random self :
  self.(enable_random_delays) = false ->
  simulate_random_delay random self = (1, self).
Proof. unfold simulate_random_delay. now intros ->. Qed.

Lemma update_stats_frame self a f self2 :
  update_stats self a f = Ok self2 ->
  self2.(enable_random_delays) = self.(enable_random_delays) /\
  self2.(rng) = self.(rng).
Proof.
  unfold update_stats. destruct (getitem _ _); [|discriminate].
  cbn. intros [= <-]. now split.
Qed.

Lemma deliver_loop_off random1 random2 a pkgs :
  forall self loc,
    self.(enable_random_delays) = false ->
    deliver_loop random1 self a loc pkgs = deliver_loop random2 self a loc pkgs /\
    forall loc' self2,
      deliver_loop random1 self a loc pkgs = Ok (loc', self2) ->
      self2.(enable_random_delays) = false /\ self2.(rng) = self.(rng).
Proof.
  induction pkgs as [|p pkgs IH]; intros self loc Off; cbn [deliver_loop].
  - split; [reflexivity|]. intros loc' self2 [= _ <-]. now split.
  - rewrite !simulate_random_delay_off by assumption.
    destruct (update_stats self a _) as [self1|e] eqn:U; cbn [bind].
    + destruct (update_stats_frame _ _ _ _ U) as [F1 R1]. rewrite Off in F1.
      destruct (IH self1 (destination p) F1) as [E H].
      split; [exact E|]. intros loc' self2 L.
      destruct (H loc' self2 L) as [F2 R2]. split; congruence.
    + split; [reflexivity|discriminate].
Qed.

Lemma warehouse_loop_off random1 random2 a groups :
  forall self loc,
    self.(enable_random_delays) = false ->
    warehouse_loop random1 self a loc groups = warehouse_loop random2 self a loc groups /\
    forall loc' self2,
      warehouse_loop random1 self a loc groups = Ok (loc', self2) ->
      self2.(enable_random_delays) = false /\ self2.(rng) = self.(rng).
Proof.
  induction groups as [|[w ps] groups IH]; intros self loc Off; cbn [warehouse_loop].
  - split; [reflexivity|]. intros loc' self2 [= _ <-]. now split.
  - destruct (getitem_ref (warehouses self) w) as [wl|e]; cbn [bind];
      [|split; [reflexivity|discriminate]].
    rewrite !simulate_random_delay_off by assumption.
    destruct (update_stats self a _) as [self1|e] eqn:U; cbn [bind];
      [|split; [reflexivity|discriminate]].
    destruct (update_stats_frame _ _ _ _ U) as [F1 R1]. rewrite Off in F1.
    destruct (deliver_loop_off random1 random2 a ps self1 wl F1) as [E H].
    rewrite <- E.
    destruct (deliver_loop random1 self1 a wl ps) as [[loc1 self3]|e] eqn:L; cbn [bind];
      [|split; [reflexivity|discriminate]].
    destruct (H loc1 self3 eq_refl) as [F3 R3].
    destruct (IH self3 loc1 F3) as [E' H'].
    split; [exact E'|]. intros loc' self2 W.
    destruct (H' loc' self2 W) as [F2 R2]. split; congruence.
Qed.

Lemma agents_loop_off random1 random2 items :
  forall self,
    self.(enable_random_delays) = false ->
    agents_loop random1 self items = agents_loop random2 self items /\
    forall self2,
      agents_loop random1 self items = Ok self2 -> self2.(rng) = self.(rng).
Proof.
  induction items as [|[a pk] items IH]; intros self Off; cbn [agents_loop].
  - split; [reflexivity|]. now intros self2 [= <-].
  - destruct pk as [|p pk]; [now apply IH|].
    destruct (getitem (agent_stats self) a) as [st|e]; cbn [bind];
      [|split; [reflexivity|discriminate]].
    destruct (group_loop (p :: pk) []) as [pbw|e]; cbn [bind];
      [|split; [reflexivity|discriminate]].
    destruct (warehouse_loop_off random1 random2 a (Dict.items pbw) self
                (current_location st) Off) as [E H].
    rewrite <- E.
    destruct (warehouse_loop random1 self a (current_location st) (Dict.items pbw))
      as [[loc1 self1]|e]; cbn [bind]; [|split; [reflexivity|discriminate]].
    destruct (H loc1 self1 eq_refl) as [F1 R1].
    destruct (update_stats self1 a _) as [self3|e] eqn:U; cbn [bind];
      [|split; [reflexivity|discriminate]].
    destruct (update_stats_frame _ _ _ _ U) as [F3 R3]. rewrite F1 in F3.
    destruct (IH self3 F3) as [E' H'].
    split; [exact E'|]. intros self2 A. rewrite (H' self2 A). congruence.
Qed.

(** With delays disabled and no agent injected, a run never consults the
    random generator: its outcome, exception included, is the same for
    every generator, and the generator is left where it stood. *)
Theorem run_without_delays_draws_nothing (random1 random2 : nat -> float)
    (self : FastBoxDeliverySystem) :
  simulate_delivery random1 self false false =
  simulate_delivery random2 self false false /\
  forall self', simulate_delivery random1 self false false = Ok self' ->
                self'.(rng) = self.(rng).
Proof.
  unfold simulate_delivery.
  destruct (assign_packages_to_agents (set_enable_random_delays self false))
    as [asg|e]; cbn [bind]; [|split; [reflexivity|discriminate]].
  exact (agents_loop_off random1 random2 (Dict.items asg)
           (set_enable_random_delays self false) eq_refl).
Qed.

(** The section 8.2 catalog after two runs without delays. *)
Definition after_two_runs : FastBoxDeliverySystem :=
  match simulate_delivery Instances.halves (Instances.after_run scenario_8_2) false false with
  | Ok s => s
  | Raise _ => mkSystem [] [] [] [] false 0
  end.

Lemma after_run_ok : stats_ok (Instances.after_run scenario_8_2).
Proof.
  split; [reflexivity|]. vm_compute. repeat constructor; cbn; intuition discriminate.
Qed.

Lemma simulate_delivery_keeps_invariant_witness :
  stats_ok after_two_runs /\
  Dict.keys after_two_runs.(agents) = ["A1"; "A2"]%string.
Proof.
  destruct (simulate_delivery_keeps_invariant Instances.halves
              (Instances.after_run scenario_8_2) after_two_runs false false)
    as (OK & _ & _ & _ & A).
  - exact after_run_ok.
  - vm_compute. reflexivity.
  - split; [exact OK|]. rewrite A. reflexivity.
Defined.

Lemma simulate_delivery_accumulates_witness :
  exists st',
    Dict.get after_two_runs.(agent_stats) "A1"%string = Some st' /\
    packages_delivered st' = 2%nat /\
    List.length (route_history st') = 4%nat.
Proof.
  destruct (simulate_delivery_accumulates Instances.halves
              (Instances.after_run scenario_8_2) after_two_runs false false)
    as (asg & E & H).
  - exact after_run_ok.
  - vm_compute. reflexivity.
  - destruct (H "A1"%string
                (mkAgentStats 1 0x1.c48c6001f0ac0p+2 (5, 5)
                   [mkRouteStep (0, 0) (0, 0) 0 to_warehouse;
                    mkRouteStep (0, 0) (5, 5) 0x1.c48c6001f0ac0p+2 delivery]))
      as (pk & st' & route & Ga & Gs & _ & Hh & Hd & Hl & _).
    + vm_compute. reflexivity.
    + vm_compute in E. injection E as <-. vm_compute in Ga. injection Ga as <-.
      exists st'. split; [exact Gs|]. split; [exact Hd|].
      rewrite Hh, length_app, Hl. reflexivity.
Defined.

Lemma recorded_route_is_continuous_witness :
  exists st' route,
    Dict.get (Instances.after_run scenario_8_2).(agent_stats) "A1"%string = Some st' /\
    route_history st' = route /\
    chained (0, 0) route.
Proof.
  destruct (recorded_route_is_continuous Instances.halves
              (Instances.loaded scenario_8_2) (Instances.after_run scenario_8_2)
              false false)
    with (a := "A1"%string) (st := mkAgentStats 0 0 (0, 0) [])
    as (st' & route & Gs & Hh & Hc & _).
  - split; [reflexivity|]. vm_compute. repeat constructor; cbn; intuition discriminate.
  - vm_compute. reflexivity.
  - vm_compute. reflexivity.
  - exists st', route. split; [exact Gs|]. split; [exact Hh|exact Hc].
Defined.

End Runs.

(** ** Injection onto an identifier in use *)

Module Collision.

Import DictFacts Init Injection.

(** When the minted identifier is already in use and there is at least one
    package, injection adds nobody: the fleet keeps its identifiers and
    their order, the agent that owns the identifier is moved to the drawn
    location and its statistics are reset, and every other agent and its
    statistics are left as they were. *)
Theorem injection_overwrites_existing_agent (random : nat -> float)
    (self : FastBoxDeliverySystem) :
  Dict.keys self.(agent_stats) = Dict.keys self.(agents) ->
  In (new_agent_id self) (Dict.keys self.(agents)) ->
  self.(packages) <> [] ->
  let loc := (uniform random self.(rng) 0 100, uniform random (S self.(rng)) 0 100) in
  let self' := _add_new_agent_mid_day random self in
  Dict.keys self'.(agents) = Dict.keys self.(agents) /\
  Dict.keys self'.(agent_stats) = Dict.keys self.(agent_stats) /\
  Dict.get self'.(agents) (new_agent_id self) = Some loc /\
  Dict.get self'.(agent_stats) (new_agent_id self) = Some (mkAgentStats 0 0%float loc []) /\
  (forall a, a <> new_agent_id self ->
     Dict.get self'.(agents) a = Dict.get self.(agents) a /\
     Dict.get self'.(agent_stats) a = Dict.get self.(agent_stats) a).
Proof.
  intros K I P loc self'.
  assert (E : self' =
              mkSystem self.(warehouses)
                (Dict.setitem self.(agents) (new_agent_id self) loc)
                self.(packages)
                (Dict.setitem self.(agent_stats) (new_agent_id self) (fresh_stats loc))
                self.(enable_random_delays) (S (S self.(rng)))).
  { unfold self', _add_new_agent_mid_day. destruct (packages self); [congruence|].
    reflexivity. }
  rewrite E. cbn [agents agent_stats].
  split; [now apply keys_setitem_present|].
  split; [apply keys_setitem_present; now rewrite K|].
  split; [apply get_setitem_eq|]. split; [apply get_setitem_eq|].
  intros a N. split; apply get_setitem_neq; congruence.
Qed.

Lemma injection_overwrites_existing_agent_witness :
  let self := Instances.loaded fleet_of_A2 in
  let self' := _add_new_agent_mid_day Instances.halves self in
  Dict.keys self'.(agents) = ["A2"%string] /\
  Dict.get self'.(agent_stats) "A2"%string =
    Some (mkAgentStats 0 0%float (50, 50)%float []).
Proof.
  destruct (injection_overwrites_existing_agent Instances.halves
              (Instances.loaded fleet_of_A2)) as (A & _ & _ & S & _).
  - reflexivity.
  - left. reflexivity.
  - discriminate.
  - split; [exact A|exact S].
Defined.

End Collision.

(** ** Export of the top performer *)

Module CsvExport.

Import DictFacts Init Best Report.
Local Open Scope float_scope.

(** The row written for the agent [b] whose statistics are [st]. *)
Definition row_of (round2 : float -> float) (timestamp b : string) (st : AgentStats)
  : csv_line :=
  CsvRow (mkTopPerformerRow b st.(packages_delivered) (round2 st.(total_distance))
                            (rounded_efficiency round2 st) timestamp).

Section CsvExport.

Variable round2 : float -> float.
Variable timestamp : string.

Lemma export_no_designator (self : FastBoxDeliverySystem) :
  NoDup (Dict.keys self.(agent_stats)) ->
  calculate_efficiency round2 self = entries_of round2 self.(agent_stats) ->
  export_top_performer_csv timestamp (calculate_efficiency round2 self) =
  match Dict.get self.(agent_stats) "best_agent"%string with
  | Some _ => (None, Raise TypeError)
  | None => (None, Ok false)
  end.
Proof.
  intros ND ->. unfold export_top_performer_csv. rewrite get_entries_of.
  now destruct (Dict.get (agent_stats self) "best_agent"%string).
Qed.

Lemma export_designated (self : FastBoxDeliverySystem) b :
  NoDup (Dict.keys self.(agent_stats)) ->
  best_of round2 self = Some b -> truthy b = true ->
  Dict.get (calculate_efficiency round2 self) "best_agent"%string = Some (Designator b) /\
  exists st,
    Dict.get self.(agent_stats) b = Some st /\
    export_top_performer_csv timestamp (calculate_efficiency round2 self) =
    if String.eqb b "best_agent"
    then (Some [CsvHeader fieldnames], Raise TypeError)
    else (Some [CsvHeader fieldnames; row_of round2 timestamp b st], Ok true).
Proof.
  intros ND Hb Tb.
  destruct (best_of_minimal round2 self b ND Hb) as (st & _ & _ & Eb & _).
  rewrite (calculate_efficiency_shape round2 self ND), Hb, Tb.
  split; [apply get_setitem_eq|]. exists st. split; [exact Eb|].
  unfold export_top_performer_csv. rewrite get_setitem_eq.
  destruct (String.eqb_spec b "best_agent") as [->|N].
  - now rewrite get_setitem_eq.
  - rewrite get_setitem_neq by congruence. rewrite get_entries_of, Eb.
    reflexivity.
Qed.

End CsvExport.

(** Export after [calculate_efficiency], in a fleet with no agent named
    ['best_agent'].  It never raises.  When the report designates no best
    agent it opens no file and reports that nothing was exported.  When the
    report designates one, it writes the header and one row: the designated
    agent's identifier, delivered count, rounded distance and rounded
    efficiency, and the timestamp. *)
Theorem export_writes_the_best_agent (round2 : float -> float) (timestamp : string)
    (self : FastBoxDeliverySystem) :
  NoDup (Dict.keys self.(agent_stats)) ->
  ~ In "best_agent"%string (Dict.keys self.(agent_stats)) ->
  let report := calculate_efficiency round2 self in
  (Dict.get report "best_agent"%string = None /\
   export_top_performer_csv timestamp report = (None, Ok false)) \/
  (exists b st,
     Dict.get report "best_agent"%string = Some (Designator b) /\
     Dict.get self.(agent_stats) b = Some st /\
     (0 < st.(packages_delivered))%nat /\
     export_top_performer_csv timestamp report =
       (Some [CsvHeader fieldnames;
              CsvRow (mkTopPerformerRow b st.(packages_delivered)
                        (round2 st.(total_distance))
                        (round2 (st.(total_distance)
                                 / PyFloat.of_nat st.(packages_delivered)))
                        timestamp)],
        Ok true)).
Proof.
  intros ND NB report. unfold report.
  assert (G : Dict.get self.(agent_stats) "best_agent"%string = None).
  { destruct (Dict.get _ _) eqn:E; [|reflexivity]. now apply get_Some_In in E. }
  assert (No : calculate_efficiency round2 self = entries_of round2 self.(agent_stats) ->
               Dict.get (calculate_efficiency round2 self) "best_agent"%string = None /\
               export_top_performer_csv timestamp (calculate_efficiency round2 self) =
                 (None, Ok false)).
  { intros E. rewrite (export_no_designator round2 timestamp self ND E), G.
    split; [|reflexivity]. now rewrite E, get_entries_of, G. }
  pose proof (calculate_efficiency_shape round2 self ND) as Sh.
  destruct (best_of round2 self) as [b|] eqn:Hb; [destruct (truthy b) eqn:Tb|];
    [|left; now apply No..].
  right. destruct (export_designated round2 timestamp self b ND Hb Tb)
    as (D & st & Eb & X).
  destruct (best_of_minimal round2 self b ND Hb) as (st0 & _ & _ & Eb0 & Pb & _).
  rewrite Eb in Eb0. injection Eb0 as <-.
  exists b, st. split; [exact D|]. split; [exact Eb|]. split; [exact Pb|].
  rewrite X. destruct (String.eqb_spec b "best_agent") as [->|N].
  - exfalso. apply NB. now apply get_Some_In in Eb.
  - unfold row_of, rounded_efficiency. apply Nat.ltb_lt in Pb. now rewrite Pb.
Qed.

(** Export after [calculate_efficiency], in a fleet with an agent named
    ['best_agent'].  When that agent is the designated one, the file is
    opened and the header written, and then [TypeError] is raised: the
    designator stands where the agent's record was.  When no agent is
    designated, [TypeError] is raised before any file is opened: the agent's
    record stands where a designator is expected.  Only when another agent
    is designated is its row exported. *)
Theorem export_fails_for_agent_named_best_agent (round2 : float -> float)
    (timestamp : string) (self : FastBoxDeliverySystem) :
  NoDup (Dict.keys self.(agent_stats)) ->
  In "best_agent"%string (Dict.keys self.(agent_stats)) ->
  let report := calculate_efficiency round2 self in
  let out := export_top_performer_csv timestamp report in
  match Dict.get report "best_agent"%string with
  | Some (Designator b) =>
      if String.eqb b "best_agent"
      then out = (Some [CsvHeader fieldnames], Raise TypeError)
      else exists st, Dict.get self.(agent_stats) b = Some st /\
                      out = (Some [CsvHeader fieldnames; row_of round2 timestamp b st],
                             Ok true)
  | _ => out = (None, Raise TypeError)
  end.
Proof.
  intros ND IB report out. unfold out, report.
  destruct (In_get_Some _ _ IB) as [stB G].
  assert (No : calculate_efficiency round2 self = entries_of round2 self.(agent_stats) ->
               match Dict.get (calculate_efficiency round2 self) "best_agent"%string with
               | Some (Designator b) =>
                   if String.eqb b "best_agent"
                   then export_top_performer_csv timestamp (calculate_efficiency round2 self)
                        = (Some [CsvHeader fieldnames], Raise TypeError)
                   else exists st, Dict.get self.(agent_stats) b = Some st /\
                          export_top_performer_csv timestamp (calculate_efficiency round2 self)
                          = (Some [CsvHeader fieldnames; row_of round2 timestamp b st],
                             Ok true)
               | _ => export_top_performer_csv timestamp (calculate_efficiency round2 self)
                      = (None, Raise TypeError)
               end).
  { intros E. rewrite (export_no_designator round2 timestamp self ND E), G.
    now rewrite E, get_entries_of, G. }
  pose proof (calculate_efficiency_shape round2 self ND) as Sh.
  destruct (best_of round2 self) as [b|] eqn:Hb; [destruct (truthy b) eqn:Tb|];
    [|now apply No..].
  destruct (export_designated round2 timestamp self b ND Hb Tb) as (D & st & Eb & X).
  rewrite D, X. destruct (String.eqb b "best_agent"); [reflexivity|].
  now exists st.
Qed.

Lemma export_writes_the_best_agent_witness :
  export_top_performer_csv "2024-01-01T00:00:00"
    (calculate_efficiency py_round2 (Instances.after_run Accounting.scenario_8_2)) =
  (Some [CsvHeader fieldnames;
         CsvRow (mkTopPerformerRow "A1" 1 0x1.c47ae147ae148p+2 0x1.c47ae147ae148p+2
                                   "2024-01-01T00:00:00")],
   Ok true).
Proof.
  destruct (export_writes_the_best_agent py_round2 "2024-01-01T00:00:00"
              (Instances.after_run Accounting.scenario_8_2))
    as [[N _]|(b & st & D & Eb & _ & X)].
  - vm_compute. repeat constructor; cbn; intuition discriminate.
  - vm_compute. intuition discriminate.
  - vm_compute in N. discriminate N.
  - vm_compute in D. injection D as <-.
    vm_compute in Eb. injection Eb as <-.
    rewrite X. reflexivity.
Defined.

Lemma export_fails_for_agent_named_best_agent_witness :
  export_top_performer_csv "2024-01-01T00:00:00"
    (calculate_efficiency py_round2
       (Instances.after_run Efficiency.agent_named_best_agent)) =
  (Some [CsvHeader fieldnames], Raise TypeError).
Proof.
  exact (export_fails_for_agent_named_best_agent py_round2 "2024-01-01T00:00:00"
           (Instances.after_run Efficiency.agent_named_best_agent)
           ltac:(vm_compute; repeat constructor; cbn; intuition discriminate)
           ltac:(left; reflexivity)).
Defined.

End CsvExport.

(** ** Assignment conserves packages *)

Module Conservation.

Import FloatFacts DictFacts Nearest Assignment.
Local Open Scope float_scope.




End Conservation.
